(** * saml2_pro_auth: the provider configuration builder

    A shallow embedding of [SamlProvider.get_provider_config]
    (src/saml2_pro_auth/models.py) and the properties of the configuration
    it hands to the SAML library.

    Python objects live on a heap: a dict or a list is a heap cell and a
    Python value is either an immutable atom or a reference to a cell, so
    that [deepcopy], [dict.setdefault] and item assignment act on shared,
    mutable objects as they do in the interpreter. *)

From stdpp Require Import gmap strings list fin_maps.
From Stdlib Require Import ZArith.

Set Warnings "-register-all".
Open Scope string_scope.
Open Scope list_scope.
Open Scope nat_scope.

(** ** Python values and the object heap *)

(** A cell is named by its index in the heap; allocation appends. *)
Abbreviation loc := nat (only parsing).

Inductive val :=
  | VNone
  | VBool (b : bool)
  | VInt (z : Z)
  | VStr (s : string)
  | VRef (l : loc).

Inductive obj :=
  | ODict (m : gmap string val)
  | OList (xs : list val).

Abbreviation heap := (list obj) (only parsing).

(** The exceptions the modelled operations can raise. *)
Inductive exn :=
  | AttributeError
  | TypeError
  | KeyError
  | IndexError
  | RecursionError.

Inductive result (A : Type) :=
  | Ok (a : A)
  | Raise (e : exn).
Arguments Ok {A} a.
Arguments Raise {A} e.

(** Computations read and write the heap and may raise. *)
Definition M (A : Type) : Type := heap → result A * heap.

Definition ret {A} (a : A) : M A := λ h, (Ok a, h).
Definition raise {A} (e : exn) : M A := λ h, (Raise e, h).
Definition lift {A} (r : result A) : M A := λ h, (r, h).
Definition bind {A B} (m : M A) (k : A → M B) : M B := λ h,
  match m h with
  | (Ok a, h') => k a h'
  | (Raise e, h') => (Raise e, h')
  end.

Declare Scope py_scope.
Delimit Scope py_scope with py.
Notation "x <- m ;; k" := (bind m (λ x, k))
  (at level 100, m at next level, right associativity) : py_scope.
Notation "m ;;; k" := (bind m (λ _, k))
  (at level 100, right associativity) : py_scope.
Open Scope py_scope.

Fixpoint forM {A B} (f : A → M B) (l : list A) : M (list B) :=
  match l with
  | [] => ret []
  | x :: l' => y <- f x ;; ys <- forM f l' ;; ret (y :: ys)
  end.

(** *** Builtins *)

Definition alloc (o : obj) : M val := λ h, (Ok (VRef (List.length h)), h ++ [o]).

(** [dict(...)] and [{...}]: a new dict object. *)
Definition new_dict (m : gmap string val) : M val := alloc (ODict m).
(** [list(...)]: a new list object. *)
Definition new_list (xs : list val) : M val := alloc (OList xs).

(** The entries of [v] when it is a dict; [e] is raised for any other value.
    (A reference outside the heap, which no Python value is, fails alike.) *)
Definition as_dict (e : exn) (v : val) : M (gmap string val) := λ h,
  match v with
  | VRef l =>
      match h !! l with
      | Some (ODict m) => (Ok m, h)
      | _ => (Raise e, h)
      end
  | _ => (Raise e, h)
  end.

(** [**v] inside a dict display: [v] must be a mapping. *)
Definition py_unpack (v : val) : M (gmap string val) := as_dict TypeError v.

(** [d[k] = x] *)
Definition py_setitem (d : val) (k : string) (x : val) : M unit := λ h,
  match d with
  | VRef l =>
      match h !! l with
      | Some (ODict m) => (Ok (), <[l := ODict (<[k := x]> m)]> h)
      | _ => (Raise TypeError, h)
      end
  | _ => (Raise TypeError, h)
  end.

(** [d.setdefault(k, dflt)]: the attribute is looked up on [d] first, then
    the argument is evaluated, then the method runs: it returns [d[k]] when
    the key is there, and otherwise stores the default and returns it. *)
Definition py_setdefault (d : val) (k : string) (dflt : M val) : M val :=
  _ <- as_dict AttributeError d ;;
  x <- dflt ;;
  m <- as_dict AttributeError d ;;
  match m !! k with
  | Some y => ret y
  | None => py_setitem d k x ;;; ret x
  end.

(** [copy.deepcopy]: atoms are returned as they are, a dict or a list is
    rebuilt from copies of its members.  [fuel] is the recursion depth the
    interpreter grants.  The memo table of the library (which keeps sharing
    and cycles) is left out: a configuration template is a finite nest of
    dicts and lists. *)
Fixpoint deepcopy (fuel : nat) (v : val) : M val :=
  match v with
  | VRef l =>
      match fuel with
      | O => raise RecursionError
      | S n => λ h,
          match h !! l with
          | Some (ODict m) =>
              (kvs <- forM (λ kv, y <- deepcopy n kv.2 ;; ret (kv.1, y))
                           (map_to_list m) ;;
               new_dict (list_to_map kvs)) h
          | Some (OList xs) =>
              (ys <- forM (deepcopy n) xs ;; new_list ys) h
          | None => (Raise TypeError, h)
          end
      end
  | _ => ret v
  end.

(** ** The models *)

Record PEMCertificate := {
  cert_name : string;
  certificate : string;
}.

Record SamlProvider := {
  name : string;
  idp_x509_signing_certificates : list PEMCertificate;
  idp_x509_encryption_certificates : list PEMCertificate;
  idp_issuer : string;
  idp_sso_url : string;
  idp_sso_binding : string;
  nameidformat : string;
  sp_acs_binding : string;
  debug : bool;
  lowercase_urlencoding : bool;
  idp_initiated_auth : bool;
  sec_want_messages_signed : bool;
  sec_want_assertions_signed : bool;
  sec_want_assertions_encrypted : bool;
}.

(** [qs.values_list("certificate", flat=True)] *)
Definition values_list_certificate (qs : list PEMCertificate) : list string :=
  certificate <$> qs.

(** ** get_provider_config *)

(** Lines 139-148: [certs = dict(encryption=list(...), signing=list(...))].
    The dict and its two lists are new objects ([new_certs]) that nothing
    else can reach or change while lines 150-172 run, so these lines read
    them through their content, the typed map [build_certs self]. *)
Definition build_certs (self : SamlProvider) : gmap string (list string) :=
  {[ "encryption" :=
       values_list_certificate (idp_x509_encryption_certificates self);
     "signing" :=
       values_list_certificate (idp_x509_signing_certificates self) ]}.

(** [k in certs and len(certs[k]) == 1] *)
Definition has_one (certs : gmap string (list string)) (k : string) : bool :=
  match certs !! k with
  | Some l => List.length l =? 1
  | None => false
  end.

(** [certs[k][0]] *)
Definition item0 (certs : gmap string (list string)) (k : string)
  : result string :=
  match certs !! k with
  | None => Raise KeyError
  | Some [] => Raise IndexError
  | Some (x :: _) => Ok x
  end.

(** [certs["signing"][0] == certs["encryption"][0]], a comparison of two
    certificate texts.  The source evaluates it only behind the two
    [has_one] guards, where both subscripts succeed. *)
Definition same_item0 (certs : gmap string (list string)) : bool :=
  match item0 certs "signing", item0 certs "encryption" with
  | Ok a, Ok b => bool_decide (a = b)
  | _, _ => false
  end.

(** The condition of lines 153-166. *)
Definition single_cert_cond (certs : gmap string (list string)) : bool :=
  ((size certs =? 1)
   && (has_one certs "signing" || has_one certs "encryption"))
  || (has_one certs "signing"
      && (has_one certs "encryption" && same_item0 certs)).

(** Lines 167-170: the value stored under [x509cert]. *)
Definition single_cert_value (certs : gmap string (list string))
  : result string :=
  if bool_decide (is_Some (certs !! "signing"))
  then item0 certs "signing"
  else item0 certs "encryption".

(** The objects of [certs]: one list per key, and the dict. *)
Definition new_certs (certs : gmap string (list string)) : M val :=
  kvs <- forM (λ kv, l <- new_list (VStr <$> kv.2) ;; ret (kv.1, l))
              (map_to_list certs) ;;
  new_dict (list_to_map kvs).

(** Lines 150-172: the entries of [idp_certificates], a dict the function
    fills and then unpacks into the idp section.  [certs_ref] is the
    [certs] object; [certs is not None] holds of a dict. *)
Definition select_idp_certificates (certs : gmap string (list string))
    (certs_ref : val) : result (gmap string val) :=
  if single_cert_cond certs
  then match single_cert_value certs with
       | Ok x => Ok {[ "x509cert" := VStr x ]}
       | Raise e => Raise e
       end
  else Ok {[ "x509certMulti" := certs_ref ]}.

(** Lines 135-208.  [fuel] is the recursion depth left to [deepcopy].  The
    keyword arguments of [dict(idp=..., sp=..., security=...)] are
    evaluated from left to right, and inside a dict display each unpacked
    operand is evaluated and merged before the next. *)
Definition get_provider_config (fuel : nat) (self : SamlProvider)
    (defaults : val) : M val :=
  let certs := build_certs self in
  certs_ref <- new_certs certs ;;
  idp_certificates <- lift (select_idp_certificates certs certs_ref) ;;
  config <- deepcopy fuel defaults ;;
  (* idp={...} *)
  sso <- new_dict {[ "url" := VStr (idp_sso_url self);
                     "binding" := VStr (idp_sso_binding self) ]} ;;
  idp <- new_dict (idp_certificates ∪
                   {[ "entityId" := VStr (idp_issuer self);
                      "singleSignOnService" := sso ]}) ;;
  (* sp={**config.setdefault("sp", dict()), **{...}} *)
  sp0 <- py_setdefault config "sp" (new_dict ∅) ;;
  sp_base <- py_unpack sp0 ;;
  acs <- new_dict {[ "url" := VStr "";
                     "binding" := VStr (sp_acs_binding self) ]} ;;
  sp_over <- new_dict {[ "entityId" := VStr "";
                         "NameIDFormat" := VStr (nameidformat self);
                         "assertionConsumerService" := acs ]} ;;
  sp_over_m <- py_unpack sp_over ;;
  sp <- new_dict (sp_over_m ∪ sp_base) ;;
  (* security={**config.setdefault("security", dict()), **{...}} *)
  sec0 <- py_setdefault config "security" (new_dict ∅) ;;
  sec_base <- py_unpack sec0 ;;
  sec_over <- new_dict
    {[ "wantMessagesSigned" := VBool (sec_want_messages_signed self);
       "wantAssertionsSigned" := VBool (sec_want_assertions_signed self);
       "wantAssertionsEncrypted" :=
         VBool (sec_want_assertions_encrypted self) ]} ;;
  sec_over_m <- py_unpack sec_over ;;
  security <- new_dict (sec_over_m ∪ sec_base) ;;
  (* config = dict(idp=..., sp=..., security=...) *)
  config <- new_dict {[ "idp" := idp; "sp" := sp; "security" := security ]} ;;
  py_setitem config "debug" (VBool (debug self)) ;;;
  py_setitem config "lowercase_urlencoding"
             (VBool (lowercase_urlencoding self)) ;;;
  py_setitem config "idp_initiated_auth" (VBool (idp_initiated_auth self)) ;;;
  ret config.

(** ** Reading a heap value as a tree *)

Inductive tree :=
  | TNone
  | TBool (b : bool)
  | TInt (z : Z)
  | TStr (s : string)
  | TList (ts : list tree)
  | TDict (tm : gmap string tree).

(** The nest of dicts and lists that [v] stands for in [h], read down to
    depth [fuel]; [None] when the structure is deeper or not closed. *)
Fixpoint reify (fuel : nat) (h : heap) (v : val) : option tree :=
  match v with
  | VNone => Some TNone
  | VBool b => Some (TBool b)
  | VInt z => Some (TInt z)
  | VStr s => Some (TStr s)
  | VRef l =>
      match fuel with
      | O => None
      | S n =>
          match h !! l with
          | Some (ODict m) =>
              let r := reify n h <$> m in
              if decide (map_Forall (λ _ o, is_Some o) r)
              then Some (TDict (omap id r))
              else None
          | Some (OList xs) => TList <$> mapM (reify n h) xs
          | None => None
          end
      end
  end.

(** ** Vocabulary of the statements *)

(** The certificate texts of a provider, in the order the queries return
    them. *)
Definition signing_texts (self : SamlProvider) : list string :=
  values_list_certificate (idp_x509_signing_certificates self).
Definition encryption_texts (self : SamlProvider) : list string :=
  values_list_certificate (idp_x509_encryption_certificates self).

Definition texts_tree (l : list string) : tree := TList (TStr <$> l).

(** The entries of the sub-object of [tm] under [k], none when the key is
    absent. *)
Definition sub_object (tm : gmap string tree) (k : string) : gmap string tree :=
  match tm !! k with
  | Some (TDict s) => s
  | _ => ∅
  end.

(** [k] is absent from [tm] or holds a dict. *)
Definition is_section (tm : gmap string tree) (k : string) : bool :=
  match tm !! k with
  | None | Some (TDict _) => true
  | Some _ => false
  end.

(** [defaults] is a configuration template with entries [tm]: a dict that
    reads as a finite nest within [fuel] levels and whose [sp] and
    [security] entries, when present, are dicts. *)
Definition template (fuel : nat) (h : heap) (defaults : val)
    (tm : gmap string tree) : Prop :=
  reify fuel h defaults = Some (TDict tm)
  ∧ is_section tm "sp" = true ∧ is_section tm "security" = true.

(** The call on [defaults] in heap [h] returns normally, and what it
    returns reads as the dict with entries [to]. *)
Definition builds (fuel : nat) (self : SamlProvider) (defaults : val)
    (h : heap) (to : gmap string tree) : Prop :=
  ∃ out h', get_provider_config fuel self defaults h = (Ok out, h')
    ∧ reify (4 + fuel) h' out = Some (TDict to).

(** ** The configuration as a tree *)

Abbreviation reads n h := (λ (v : val) (t : tree), reify n h v = Some t).

(** The tree of the entries that [select_idp_certificates] returns. *)
Definition cert_field (self : SamlProvider) : gmap string tree :=
  if single_cert_cond (build_certs self)
  then {[ "x509cert" := TStr (default "" (head (signing_texts self))) ]}
  else {[ "x509certMulti" := TDict (texts_tree <$> build_certs self) ]}.

(** The tree of the configuration built for [self] from a template with
    entries [tm]. *)
Definition idp_tree (self : SamlProvider) : gmap string tree :=
  cert_field self ∪
  {[ "entityId" := TStr (idp_issuer self);
     "singleSignOnService" :=
       TDict {[ "url" := TStr (idp_sso_url self);
                "binding" := TStr (idp_sso_binding self) ]} ]}.

Definition sp_overlay (self : SamlProvider) : gmap string tree :=
  {[ "entityId" := TStr "";
     "NameIDFormat" := TStr (nameidformat self);
     "assertionConsumerService" :=
       TDict {[ "url" := TStr "";
                "binding" := TStr (sp_acs_binding self) ]} ]}.

Definition security_overlay (self : SamlProvider) : gmap string tree :=
  {[ "wantMessagesSigned" := TBool (sec_want_messages_signed self);
     "wantAssertionsSigned" := TBool (sec_want_assertions_signed self);
     "wantAssertionsEncrypted" := TBool (sec_want_assertions_encrypted self) ]}.

Definition config_tree (self : SamlProvider) (tm : gmap string tree)
  : gmap string tree :=
  <[ "idp_initiated_auth" := TBool (idp_initiated_auth self) ]>
  (<[ "lowercase_urlencoding" := TBool (lowercase_urlencoding self) ]>
  (<[ "debug" := TBool (debug self) ]>
   {[ "idp" := TDict (idp_tree self);
      "sp" := TDict (sp_overlay self ∪ sub_object tm "sp");
      "security" := TDict (security_overlay self ∪ sub_object tm "security") ]})).

(** ** Footprints *)

(** A value that does not name a cell below [b]: writing through it
    leaves the first [b] cells alone. *)
Definition fresh (b : nat) (v : val) : Prop :=
  match v with
  | VRef l => b ≤ l
  | _ => True
  end.

(** [h'] keeps the first [b] cells of [h]. *)
Definition keeps (b : nat) (h h' : heap) : Prop :=
  length h ≤ length h' ∧ take b h' = take b h.

(** [m] keeps the first [b] cells of any heap that has them, whether it
    returns or raises, and what it returns satisfies [P]. *)
Definition framed {A} (b : nat) (P : A → Prop) (m : M A) : Prop :=
  ∀ h, b ≤ length h → keeps b h (m h).2 ∧ ∀ a, (m h).1 = Ok a → P a.

(** What a copy of depth [n] achieves: the same tree, in a larger heap. *)
Definition copies (n : nat) : Prop :=
  ∀ h v t, reify n h v = Some t →
    ∃ v' h', deepcopy n v h = (Ok v', h') ∧ h `prefix_of` h' ∧
             reify n h' v' = Some t.

(** ** Exceptions and isolation *)

(** The exceptions that defaults which are no template can cause. *)
Definition from_the_defaults (e : exn) : Prop :=
  e = AttributeError ∨ e = TypeError ∨ e = RecursionError.

(** [m] raises nothing outside [E]. *)
Definition throws {A} (E : exn → Prop) (m : M A) : Prop :=
  ∀ h e, (m h).1 = Raise e → E e.

(** Every member of the cell [o] is an atom or names a cell from [b] on. *)
Definition cell_above (b : nat) (o : obj) : Prop :=
  match o with
  | ODict m => map_Forall (λ _, fresh b) m
  | OList xs => Forall (fresh b) xs
  end.

(** The cells of [h] from [b] on refer to no cell below [b]. *)
Definition separate (b : nat) (h : heap) : Prop :=
  ∀ l o, b ≤ l → h !! l = Some o → cell_above b o.

(** [m] keeps the cells from [b] on separate from those below, and what it
    returns satisfies [P]. *)
Definition isolating {A} (b : nat) (P : A → Prop) (m : M A) : Prop :=
  ∀ h, b ≤ length h → separate b h →
    length h ≤ length (m h).2 ∧ separate b (m h).2
    ∧ ∀ a, (m h).1 = Ok a → P a.

(** ** Scenarios *)

(** Providers and a template for the scenarios. *)
Definition provider_with (signing encryption : list string) : SamlProvider := {|
  name := "example";
  idp_x509_signing_certificates :=
    (λ c, {| cert_name := c; certificate := c |}) <$> signing;
  idp_x509_encryption_certificates :=
    (λ c, {| cert_name := c; certificate := c |}) <$> encryption;
  idp_issuer := "https://idp.example/metadata";
  idp_sso_url := "https://idp.example/sso";
  idp_sso_binding := "HTTP-POST";
  nameidformat := "urn:oasis:names:tc:SAML:1.1:nameid-format:unspecified";
  sp_acs_binding := "HTTP-POST";
  debug := false;
  lowercase_urlencoding := false;
  idp_initiated_auth := false;
  sec_want_messages_signed := true;
  sec_want_assertions_signed := false;
  sec_want_assertions_encrypted := false;
|}.

(** [{"strict": True, "idp": {"entityId": "https://other.example"},
      "sp": {"entityId": "old", "x509cert": ""},
      "security": {"wantNameId": True}}], at [VRef 3]. *)
Definition example_heap : heap :=
  [ ODict {[ "entityId" := VStr "https://other.example" ]};
    ODict {[ "entityId" := VStr "old"; "x509cert" := VStr "" ]};
    ODict {[ "wantNameId" := VBool true ]};
    ODict {[ "strict" := VBool true; "idp" := VRef 0; "sp" := VRef 1;
             "security" := VRef 2 ]} ].

Definition example_template : gmap string tree :=
  {[ "strict" := TBool true;
     "idp" := TDict {[ "entityId" := TStr "https://other.example" ]};
     "sp" := TDict {[ "entityId" := TStr "old"; "x509cert" := TStr "" ]};
     "security" := TDict {[ "wantNameId" := TBool true ]} ]}.

(** A template with the [sp] and [security] sub-objects of the example
    and other top-level keys:
    [{"sp": {"entityId": "old", "x509cert": ""},
      "security": {"wantNameId": True}, "debug": True}], at [VRef 2]. *)
Definition other_heap : heap :=
  [ ODict {[ "entityId" := VStr "old"; "x509cert" := VStr "" ]};
    ODict {[ "wantNameId" := VBool true ]};
    ODict {[ "sp" := VRef 0; "security" := VRef 1; "debug" := VBool true ]} ].

Definition other_template : gmap string tree :=
  {[ "sp" := TDict {[ "entityId" := TStr "old"; "x509cert" := TStr "" ]};
     "security" := TDict {[ "wantNameId" := TBool true ]};
     "debug" := TBool true ]}.

(** The provider [p] under the name [n], its certificate records renamed
    by [f]. *)
Definition renamed (n : string) (f : string → string) (p : SamlProvider)
  : SamlProvider := {|
  name := n;
  idp_x509_signing_certificates :=
    (λ c, {| cert_name := f (cert_name c); certificate := certificate c |})
      <$> idp_x509_signing_certificates p;
  idp_x509_encryption_certificates :=
    (λ c, {| cert_name := f (cert_name c); certificate := certificate c |})
      <$> idp_x509_encryption_certificates p;
  idp_issuer := idp_issuer p;
  idp_sso_url := idp_sso_url p;
  idp_sso_binding := idp_sso_binding p;
  nameidformat := nameidformat p;
  sp_acs_binding := sp_acs_binding p;
  debug := debug p;
  lowercase_urlencoding := lowercase_urlencoding p;
  idp_initiated_auth := idp_initiated_auth p;
  sec_want_messages_signed := sec_want_messages_signed p;
  sec_want_assertions_signed := sec_want_assertions_signed p;
  sec_want_assertions_encrypted := sec_want_assertions_encrypted p;
|}.

(** * Proofs *)

(** ** The embedding at work *)

(** Scenario B on the example template, run from end to end: the idp
    section comes from the provider, sp and security overlay the copied
    defaults, and the top-level key [strict] of the defaults is gone. *)
Example scenario_B_runs :
  (let r := get_provider_config 2 (provider_with ["CERTA"] ["CERTA"])
              (VRef 3) example_heap in
   match r.1 with
   | Ok out => reify 6 r.2 out
   | Raise _ => None
   end)
  = Some (TDict
      {[ "idp" := TDict
           {[ "entityId" := TStr "https://idp.example/metadata";
              "singleSignOnService" :=
                TDict {[ "url" := TStr "https://idp.example/sso";
                         "binding" := TStr "HTTP-POST" ]};
              "x509cert" := TStr "CERTA" ]};
         "sp" := TDict
           {[ "entityId" := TStr "";
              "x509cert" := TStr "";
              "NameIDFormat" :=
                TStr "urn:oasis:names:tc:SAML:1.1:nameid-format:unspecified";
              "assertionConsumerService" :=
                TDict {[ "url" := TStr ""; "binding" := TStr "HTTP-POST" ]} ]};
         "security" := TDict
           {[ "wantNameId" := TBool true;
              "wantMessagesSigned" := TBool true;
              "wantAssertionsSigned" := TBool false;
              "wantAssertionsEncrypted" := TBool false ]};
         "debug" := TBool false;
         "lowercase_urlencoding" := TBool false;
         "idp_initiated_auth" := TBool false ]}).
Proof. vm_compute. reflexivity. Qed.

(** [setdefault] writes to the copy: with the template [{"strict": True}]
    at [VRef 0], the cell of the defaults is as it was, and the copy (the
    cell after the three [certs] objects) has gained [sp] and [security]. *)
Example setdefault_writes_to_the_copy :
  let h := [ODict {[ "strict" := VBool true ]}] in
  let h' := (get_provider_config 1 (provider_with ["CERTA"] []) (VRef 0) h).2 in
  h' !! 0 = Some (ODict {[ "strict" := VBool true ]})
  ∧ h' !! 4 = Some (ODict {[ "strict" := VBool true; "sp" := VRef 7;
                             "security" := VRef 11 ]}).
Proof. split; vm_compute; reflexivity. Qed.

(** What the interpreter raises on defaults that are no template. *)
Example defaults_None_raises :
  (get_provider_config 1 (provider_with ["CERTA"] []) VNone []).1
  = Raise AttributeError.
Proof. vm_compute. reflexivity. Qed.

Example sp_not_a_mapping_raises :
  (get_provider_config 1 (provider_with ["CERTA"] []) (VRef 0)
     [ODict {[ "sp" := VStr "x" ]}]).1
  = Raise TypeError.
Proof. vm_compute. reflexivity. Qed.

Example deep_template_raises :
  (get_provider_config 1 (provider_with ["CERTA"] []) (VRef 3) example_heap).1
  = Raise RecursionError.
Proof. vm_compute. reflexivity. Qed.

(** The condition of lines 153-166 on the certificate lists. *)
Example single_cert_cond_examples :
  single_cert_cond (build_certs (provider_with ["A"] ["A"])) = true
  ∧ single_cert_cond (build_certs (provider_with ["A"] [])) = false
  ∧ single_cert_cond (build_certs (provider_with [] ["A"])) = false
  ∧ single_cert_cond (build_certs (provider_with ["A"] ["B"])) = false
  ∧ single_cert_cond (build_certs (provider_with [] [])) = false
  ∧ single_cert_cond (build_certs (provider_with ["A"; "B"] ["A"])) = false
  ∧ single_cert_cond {[ "signing" := ["A"] ]} = true
  ∧ single_cert_cond {[ "encryption" := ["A"] ]} = true.
Proof. repeat split; vm_compute; reflexivity. Qed.

(** ** Reading trees *)

Lemma reify_dict n h l tm :
  reify (S n) h (VRef l) = Some (TDict tm) ↔
  ∃ m, h !! l = Some (ODict m) ∧ map_Forall2 (λ _, reads n h) m tm.
Proof.
  simpl. split.
  - destruct (h !! l) as [[m|xs]|] eqn:Hl; [|by destruct (mapM _ _)|done].
    case_decide as Hall; [|done]. intros [= <-]. exists m. split; [done|].
    intros k. rewrite lookup_omap, lookup_fmap.
    destruct (m !! k) as [v|] eqn:Hk; simpl; [|constructor].
    destruct (Hall k (reify n h v)) as [t Ht].
    { by rewrite lookup_fmap, Hk. }
    rewrite Ht. by constructor.
  - intros (m & -> & Hm). rewrite decide_True.
    + do 2 f_equal. apply map_eq. intros k.
      rewrite lookup_omap, lookup_fmap.
      destruct (Hm k) as [v t Hvt|]; simpl; [by rewrite Hvt|done].
    + intros k o. rewrite lookup_fmap. intros Hk.
      destruct (Hm k) as [v t Hvt|]; simpl in Hk; [|done].
      injection Hk as <-. by rewrite Hvt.
Qed.

Lemma reify_list n h l ts :
  reify (S n) h (VRef l) = Some (TList ts) ↔
  ∃ xs, h !! l = Some (OList xs) ∧ Forall2 (reads n h) xs ts.
Proof.
  simpl. split.
  - destruct (h !! l) as [[m|xs]|] eqn:Hl; [by case_decide| |done].
    destruct (mapM _ xs) as [ts'|] eqn:Hxs; [|done]. intros [= <-].
    exists xs. split; [done|]. by apply mapM_Some.
  - intros (xs & -> & Hxs). apply mapM_Some in Hxs. by rewrite Hxs.
Qed.

(** A reference reads as a dict or as a list, and only with fuel. *)
Lemma reify_ref_inv n h l t :
  reify n h (VRef l) = Some t →
  ∃ n', n = S n' ∧
    ((∃ m tm, t = TDict tm ∧ h !! l = Some (ODict m) ∧
        map_Forall2 (λ _, reads n' h) m tm) ∨
     (∃ xs ts, t = TList ts ∧ h !! l = Some (OList xs) ∧
        Forall2 (reads n' h) xs ts)).
Proof.
  destruct n as [|n']; [done|]. intros Ht. exists n'. split; [done|].
  assert (Hshape : (∃ tm, t = TDict tm) ∨ (∃ ts, t = TList ts)).
  { simpl in Ht. destruct (h !! l) as [[m|xs]|]; [| |done].
    - case_decide; [|done]. injection Ht as <-. eauto.
    - destruct (mapM _ xs); [|done]. injection Ht as <-. eauto. }
  destruct Hshape as [[tm ->]|[ts ->]].
  - apply reify_dict in Ht as (m & ? & ?). left. eauto 10.
  - apply reify_list in Ht as (xs & ? & ?). right. eauto 10.
Qed.

(** More fuel and a larger heap read the same tree. *)
Lemma reify_mono n h v t :
  reify n h v = Some t →
  ∀ n' h', n ≤ n' → h `prefix_of` h' → reify n' h' v = Some t.
Proof.
  revert v t. induction n as [|n IH]; intros v t Ht n' h' Hn Hh.
  - by destruct v, n'.
  - destruct v as [| | | |l]; try (by destruct n').
    destruct n' as [|n']; [lia|].
    apply reify_ref_inv in Ht as (n0 & [= <-] & [(m & tm & -> & Hl & Hm)|
                                                 (xs & ts & -> & Hl & Hxs)]).
    + apply reify_dict. exists m. split; [by eapply prefix_lookup_Some|].
      eapply map_Forall2_impl; [done|]. intros k v t Hvt. simpl in *.
      apply IH; [done|lia|done].
    + apply reify_list. exists xs. split; [by eapply prefix_lookup_Some|].
      eapply Forall2_impl; [done|]. intros v t Hvt. simpl in *.
      apply IH; [done|lia|done].
Qed.

Lemma reify_str n h s : reify n h (VStr s) = Some (TStr s).
Proof. by destruct n. Qed.

Lemma reify_bool n h b : reify n h (VBool b) = Some (TBool b).
Proof. by destruct n. Qed.

Lemma reify_texts n h l : Forall2 (reads n h) (VStr <$> l) (TStr <$> l).
Proof.
  apply Forall2_fmap, Forall_Forall2_diag, Forall_forall.
  intros s _. apply reify_str.
Qed.

Global Arguments reify : simpl never.

(** ** Running computations *)

Lemma bind_Ok {A B} (m : M A) (k : A → M B) h a h' :
  m h = (Ok a, h') → bind m k h = k a h'.
Proof. unfold bind. by intros ->. Qed.

(** A loop whose body only allocates: what each round establishes about
    the heap it leaves still holds when the loop is over. *)
Section forM_grow.
Context {A B : Type} (f : A → M B) (h0 : heap).
Context (Pre : A → Prop) (R : heap → A → B → Prop).
Hypothesis R_mono : ∀ h h' a b, h `prefix_of` h' → R h a b → R h' a b.
Hypothesis f_spec : ∀ a h, h0 `prefix_of` h → Pre a →
  ∃ b h', f a h = (Ok b, h') ∧ h `prefix_of` h' ∧ R h' a b.

Lemma forM_grow l h :
  h0 `prefix_of` h → Forall Pre l →
  ∃ bs h', forM f l h = (Ok bs, h') ∧ h `prefix_of` h' ∧ Forall2 (R h') l bs.
Proof using R_mono f_spec.
  revert h. induction l as [|a l IH]; intros h Hh Hl.
  - exists [], h. by repeat split.
  - apply Forall_cons in Hl as [Ha Hl].
    destruct (f_spec a h Hh Ha) as (b & h1 & Hf & Hh1 & Hb).
    destruct (IH h1) as (bs & h2 & Hfs & Hh2 & Hbs); [by etrans|done|].
    exists (b :: bs), h2. split; [|split].
    + simpl. rewrite (bind_Ok _ _ _ _ _ Hf), (bind_Ok _ _ _ _ _ Hfs). done.
    + by etrans.
    + constructor; [by eapply R_mono|done].
Qed.
End forM_grow.

Lemma list_to_map_Forall2 {A B} (Q : A → B → Prop)
    (l : list (string * A)) (l' : list (string * B)) :
  Forall2 (λ a b, b.1 = a.1 ∧ Q a.2 b.2) l l' →
  map_Forall2 (λ _, Q) (list_to_map l : gmap string A) (list_to_map l').
Proof.
  induction 1 as [|[k x] [k' y] l l' [Hk HQ] _ IH]; simpl in *.
  - apply map_Forall2_empty.
  - subst k'. by apply map_Forall2_insert_2.
Qed.

(** ** deepcopy *)

Lemma deepcopy_dict_step n h l m tm :
  copies n →
  h !! l = Some (ODict m) →
  map_Forall2 (λ _, reads n h) m tm →
  ∃ hk mc, deepcopy (S n) (VRef l) h = (Ok (VRef (length hk)), hk ++ [ODict mc])
    ∧ h `prefix_of` hk ∧ map_Forall2 (λ _, reads n hk) mc tm.
Proof.
  intros IH Hl Hm.
  destruct (forM_grow (λ kv : string * val, y <- deepcopy n kv.2 ;; ret (kv.1, y))
              h (λ kv, ∃ t, reify n h kv.2 = Some t)
              (λ h' a b, b.1 = a.1 ∧
                 ∃ t, reify n h a.2 = Some t ∧ reify n h' b.2 = Some t))
    with (l := map_to_list m) (h := h) as (kvs & hk & Hrun & Hhk & Hkvs).
  - intros h1 h2 a b Hh (? & t & ? & ?). split; [done|]. exists t.
    split; [done|]. by eapply reify_mono.
  - intros [k v] h1 Hh1 [t Ht]. simpl in *.
    destruct (IH h1 v t) as (v' & h2 & Hc & Hh2 & Hv'); [by eapply reify_mono|].
    exists (k, v'), h2. rewrite (bind_Ok _ _ _ _ _ Hc). eauto 10.
  - done.
  - apply Forall_forall. intros [k v] Hkv%elem_of_map_to_list. simpl.
    destruct (Hm k) as [v0 t Hvt|]; simplify_eq. eauto.
  - exists hk, (list_to_map kvs). split; [|split; [done|]].
    + simpl. rewrite Hl. by rewrite (bind_Ok _ _ _ _ _ Hrun).
    + apply (list_to_map_Forall2
               (λ v v', ∃ t, reify n h v = Some t ∧ reify n hk v' = Some t))
        in Hkvs.
      rewrite list_to_map_to_list in Hkvs.
      intros k. specialize (Hkvs k). specialize (Hm k).
      destruct Hkvs as [v v' (t & Hv & Hv')|]; inversion Hm; simplify_eq;
        by constructor.
Qed.

Lemma deepcopy_list_step n h l xs ts :
  copies n →
  h !! l = Some (OList xs) →
  Forall2 (reads n h) xs ts →
  ∃ hk ys, deepcopy (S n) (VRef l) h = (Ok (VRef (length hk)), hk ++ [OList ys])
    ∧ h `prefix_of` hk ∧ Forall2 (reads n hk) ys ts.
Proof.
  intros IH Hl Hxs.
  destruct (forM_grow (deepcopy n) h (λ v, ∃ t, reify n h v = Some t)
              (λ h' v v', ∃ t, reify n h v = Some t ∧ reify n h' v' = Some t))
    with (l := xs) (h := h) as (ys & hk & Hrun & Hhk & Hys).
  - intros h1 h2 a b Hh (t & ? & ?). exists t. split; [done|].
    by eapply reify_mono.
  - intros v h1 Hh1 [t Ht].
    destruct (IH h1 v t) as (v' & h2 & Hc & Hh2 & Hv'); [by eapply reify_mono|].
    eauto 10.
  - done.
  - apply Forall_forall. intros v Hv.
    apply list_elem_of_lookup in Hv as [i Hi].
    destruct (Forall2_lookup_l _ _ _ _ _ Hxs Hi) as (t & _ & Ht). eauto.
  - exists hk, ys. split; [|split; [done|]].
    + simpl. rewrite Hl. by rewrite (bind_Ok _ _ _ _ _ Hrun).
    + clear Hrun Hl. revert ts Hxs.
      induction Hys as [|v v' xs ys (t & Hv & Hv') _ IHys]; intros ts Hxs;
        inversion Hxs; simplify_eq; constructor; eauto.
Qed.

Lemma lookup_snoc_length {A} (l : list A) (x : A) : (l ++ [x]) !! length l = Some x.
Proof. by rewrite list_lookup_middle. Qed.

Lemma deepcopy_reads n : copies n.
Proof.
  induction n as [|n IH]; intros h v t Ht.
  - destruct v; try done; eexists _, h; by repeat split.
  - destruct v as [| | | |l]; try (eexists _, h; by repeat split).
    apply reify_ref_inv in Ht as (n0 & [= <-] & [(m & tm & -> & Hl & Hm)|
                                                 (xs & ts & -> & Hl & Hxs)]).
    + destruct (deepcopy_dict_step n h l m tm IH Hl Hm) as (hk & mc & Hc & Hhk & Hmc).
      eexists _, _. split; [done|]. split; [by apply prefix_app_r|].
      apply reify_dict. exists mc. split; [apply lookup_snoc_length|].
      eapply map_Forall2_impl; [done|]. intros k v t Hvt.
      eapply reify_mono; [exact Hvt|lia|by apply prefix_app_r].
    + destruct (deepcopy_list_step n h l xs ts IH Hl Hxs) as (hk & ys & Hc & Hhk & Hys).
      eexists _, _. split; [done|]. split; [by apply prefix_app_r|].
      apply reify_list. exists ys. split; [apply lookup_snoc_length|].
      eapply Forall2_impl; [done|]. intros v t Hvt.
      eapply reify_mono; [exact Hvt|lia|by apply prefix_app_r].
Qed.

(** The copy of a dict is a new dict, allocated after the copies of its
    members. *)
Lemma deepcopy_dict n h l m tm :
  h !! l = Some (ODict m) →
  map_Forall2 (λ _, reads n h) m tm →
  ∃ hk mc, deepcopy (S n) (VRef l) h = (Ok (VRef (length hk)), hk ++ [ODict mc])
    ∧ h `prefix_of` hk ∧ map_Forall2 (λ _, reads n hk) mc tm.
Proof. apply deepcopy_dict_step, deepcopy_reads. Qed.

(** ** The certificate field *)

Lemma new_certs_reads certs h :
  ∃ c h', new_certs certs h = (Ok c, h') ∧ h `prefix_of` h' ∧
    reify 2 h' c = Some (TDict (texts_tree <$> certs)).
Proof.
  destruct (forM_grow
              (λ kv : string * list string,
                 l <- new_list (VStr <$> kv.2) ;; ret (kv.1, l))
              h (λ _, True)
              (λ h' a b, b.1 = a.1 ∧ reify 1 h' b.2 = Some (texts_tree a.2)))
    with (l := map_to_list certs) (h := h) as (kvs & hk & Hrun & Hhk & Hkvs).
  - intros h1 h2 a b Hh [? ?]. split; [done|]. by eapply reify_mono.
  - intros [k l] h1 _ _. eexists (k, VRef (length h1)), _.
    split; [done|]. split; [by apply prefix_app_r|]. split; [done|].
    apply reify_list. eexists. split; [apply lookup_snoc_length|].
    apply reify_texts.
  - done.
  - by apply Forall_forall.
  - eexists _, _. split; [|split].
    + unfold new_certs. by rewrite (bind_Ok _ _ _ _ _ Hrun).
    + by apply prefix_app_r.
    + apply reify_dict. eexists. split; [apply lookup_snoc_length|].
      apply (list_to_map_Forall2
               (λ (l : list string) v, reify 1 hk v = Some (texts_tree l)))
        in Hkvs.
      rewrite list_to_map_to_list in Hkvs. intros k. specialize (Hkvs k).
      rewrite lookup_fmap.
      destruct Hkvs as [l v Hv|]; simpl; constructor.
      eapply reify_mono; [exact Hv|lia|by apply prefix_app_r].
Qed.

Lemma build_certs_signing self :
  build_certs self !! "signing" = Some (signing_texts self).
Proof. unfold build_certs. by rewrite lookup_insert_ne, lookup_singleton_eq. Qed.

Lemma build_certs_encryption self :
  build_certs self !! "encryption" = Some (encryption_texts self).
Proof. unfold build_certs. by rewrite lookup_insert_eq. Qed.

Lemma build_certs_size self : size (build_certs self) = 2.
Proof.
  unfold build_certs. rewrite map_size_insert_None, map_size_singleton; [done|].
  by rewrite lookup_singleton_ne.
Qed.

Lemma single_cert_cond_build self :
  single_cert_cond (build_certs self) = true ↔
  ∃ x, signing_texts self = [x] ∧ encryption_texts self = [x].
Proof.
  unfold single_cert_cond, has_one, same_item0, item0.
  rewrite build_certs_size, build_certs_signing, build_certs_encryption.
  simpl. split.
  - destruct (signing_texts self) as [|x [|??]]; simpl; try done.
    destruct (encryption_texts self) as [|y [|??]]; simpl; try done.
    intros ->%bool_decide_eq_true. eauto.
  - intros (x & -> & ->). simpl. by apply bool_decide_eq_true.
Qed.

Lemma single_cert_value_build self x l :
  signing_texts self = x :: l → single_cert_value (build_certs self) = Ok x.
Proof.
  intros Hs. unfold single_cert_value, item0.
  rewrite build_certs_signing, Hs. by rewrite bool_decide_true.
Qed.

Lemma select_reads self h :
  ∃ c h1 ic, new_certs (build_certs self) h = (Ok c, h1)
    ∧ select_idp_certificates (build_certs self) c = Ok ic
    ∧ h `prefix_of` h1 ∧ map_Forall2 (λ _, reads 2 h1) ic (cert_field self).
Proof.
  destruct (new_certs_reads (build_certs self) h) as (c & h1 & Hrun & Hh & Hr).
  exists c, h1. unfold select_idp_certificates, cert_field.
  destruct (single_cert_cond (build_certs self)) eqn:Hc.
  - apply single_cert_cond_build in Hc as (x & Hs & He).
    rewrite (single_cert_value_build self x []) by done.
    eexists. split; [done|]. split; [done|]. split; [done|]. rewrite Hs. simpl.
    apply map_Forall2_singleton, reify_str.
  - eexists. split; [done|]. split; [done|]. split; [done|].
    by apply map_Forall2_singleton.
Qed.

(** ** The overlaid sections *)

Lemma lookup_base {A} (l k : list A) (x : A) : (l ++ x :: k) !! length l = Some x.
Proof. by rewrite list_lookup_middle. Qed.

Lemma lookup_offset {A} (l k : list A) (i : nat) :
  (l ++ k) !! (length l + i) = k !! i.
Proof. rewrite lookup_app_r by lia. f_equal. lia. Qed.

Lemma insert_base {A} (l k : list A) (x y : A) :
  <[length l := y]> (l ++ x :: k) = l ++ y :: k.
Proof. rewrite insert_app_r_alt by lia. by rewrite Nat.sub_diag. Qed.

Lemma insert_offset {A} (l k : list A) (i : nat) (y : A) :
  <[length l + i := y]> (l ++ k) = l ++ <[i := y]> k.
Proof. rewrite insert_app_r_alt by lia. do 2 f_equal. lia. Qed.

Lemma lookup_last_base {A} (l k : list A) (x x' y : A) :
  (l ++ x' :: k ++ [y]) !! length (l ++ x :: k) = Some y.
Proof.
  replace (l ++ x' :: k ++ [y]) with ((l ++ x' :: k) ++ [y])
    by (by rewrite <- app_assoc).
  replace (length (l ++ x :: k)) with (length (l ++ x' :: k))
    by (by rewrite !length_app).
  apply lookup_snoc_length.
Qed.

Lemma map_Forall2_union {A B} (R : string → A → B → Prop)
    (m1 m2 : gmap string A) (t1 t2 : gmap string B) :
  map_Forall2 R m1 t1 → map_Forall2 R m2 t2 →
  map_Forall2 R (m1 ∪ m2) (t1 ∪ t2).
Proof.
  intros H1 H2 k. rewrite !lookup_union.
  destruct (H1 k), (H2 k); simpl; by constructor.
Qed.

(** [config.setdefault(k, dict())] followed by the unpacking of what it
    returns, on the copy [VRef (length hk)] of a template whose members
    live in [hk]: the entries unpacked are those of the template's
    sub-object, and only the copy gains a key. *)
Lemma section_step fuel k hk mc rest tm :
  option_Forall2 (reads fuel hk) (mc !! k) (tm !! k) →
  is_section tm k = true →
  ∃ mc' base,
    (s0 <- py_setdefault (VRef (length hk)) k (new_dict ∅) ;; py_unpack s0)
      (hk ++ ODict mc :: rest)
    = (Ok base, hk ++ ODict mc' :: rest ++ [ODict ∅])
    ∧ map_Forall2 (λ _, reads fuel hk) base (sub_object tm k)
    ∧ (∀ k', k' ≠ k → mc' !! k' = mc !! k').
Proof.
  intros Hk Hsec. unfold is_section, sub_object in *.
  unfold bind, py_setdefault, bind, as_dict, new_dict, alloc. simpl.
  rewrite lookup_base. rewrite <- app_assoc. simpl. rewrite lookup_base.
  destruct Hk as [y t Hy|].
  - destruct t as [| | | | |ts]; try done.
    destruct y as [| | | |ly]; try (by rewrite ?reify_str, ?reify_bool in Hy; destruct fuel).
    apply reify_ref_inv in Hy as (n' & -> & [(ms & ts' & [= <-] & Hly & Hms)|
                                              (? & ? & ? & _)]); [|done].
    exists mc, ms. simpl. unfold py_unpack, as_dict.
    erewrite prefix_lookup_Some; [|exact Hly|by apply prefix_app_r].
    split; [done|]. split; [|done].
    eapply map_Forall2_impl; [done|]. intros ? v t Hvt.
    eapply reify_mono; [exact Hvt|lia|done].
  - exists (<[k := VRef (length (hk ++ ODict mc :: rest))]> mc), ∅.
    unfold py_setitem, py_unpack, as_dict. simpl.
    rewrite lookup_base, insert_base. unfold ret. simpl.
    rewrite lookup_last_base.
    split; [done|]. split; [apply map_Forall2_empty|].
    intros k' Hk'. by rewrite lookup_insert_ne.
Qed.

(** ** The whole function on a template *)

Lemma bind_bind_Ok {A B C} (m : M A) (f : A → M B) (k : B → M C) h b h' :
  (x <- m ;; f x) h = (Ok b, h') → (x <- m ;; y <- f x ;; k y) h = k b h'.
Proof.
  unfold bind. destruct (m h) as [[a|e] h1]; [|done].
  destruct (f a h1) as [[b'|e] h2]; [|done]. by intros [= -> ->].
Qed.

Lemma new_dict_run m h : new_dict m h = (Ok (VRef (length h)), h ++ [ODict m]).
Proof. done. Qed.

Lemma reify_dict_val n h v tm :
  reify n h v = Some (TDict tm) →
  ∃ n' l m, n = S n' ∧ v = VRef l ∧ h !! l = Some (ODict m)
    ∧ map_Forall2 (λ _, reads n' h) m tm.
Proof.
  destruct v as [| | | |l]; try (by destruct n).
  intros (n' & -> & [(m & tm' & [= <-] & Hl & Hm)|(? & ? & ? & _)])%reify_ref_inv;
    [|done].
  eauto 10.
Qed.

Ltac norm_heap := rewrite <- ?app_assoc, ?length_app; simpl.
Ltac run_alloc := rewrite (bind_Ok _ _ _ _ _ (new_dict_run _ _)); norm_heap.

Lemma py_unpack_run hk L i m :
  L !! i = Some (ODict m) →
  py_unpack (VRef (length hk + i)) (hk ++ L) = (Ok m, hk ++ L).
Proof. intros Hi. unfold py_unpack, as_dict. by rewrite lookup_offset, Hi. Qed.

Lemma py_setitem_run hk L i m k x :
  L !! i = Some (ODict m) →
  py_setitem (VRef (length hk + i)) k x (hk ++ L)
  = (Ok (), hk ++ <[i := ODict (<[k := x]> m)]> L).
Proof.
  intros Hi. unfold py_setitem. by rewrite lookup_offset, Hi, insert_offset.
Qed.

Ltac run_unpack :=
  erewrite bind_Ok by (apply py_unpack_run; reflexivity); norm_heap.
Ltac run_setitem :=
  erewrite bind_Ok by (apply py_setitem_run; reflexivity); norm_heap.

Ltac run_section n k tm H1 H2 :=
  match goal with
  | |- context [ bind (py_setdefault (VRef (length ?hk)) _ _) _
                   (?hk ++ ODict ?c :: ?rest) ] =>
      let mc' := fresh "mc" in
      let base := fresh "base" in
      let Hrun := fresh "Hrun" in
      let Hbase := fresh "Hbase" in
      let Hmc := fresh "Hmc" in
      destruct (section_step n k hk c rest tm H1 H2)
        as (mc' & base & Hrun & Hbase & Hmc);
      rewrite (bind_bind_Ok _ _ _ _ _ _ Hrun); simpl
  end.

Lemma map_Forall2_reads_mono n h (m : gmap string val)
    (tm : gmap string tree) n' h' :
  map_Forall2 (λ _, reads n h) m tm → n ≤ n' → h `prefix_of` h' →
  map_Forall2 (λ _, reads n' h') m tm.
Proof.
  intros Hm Hn Hh. eapply map_Forall2_impl; [done|]. intros ? v t Hvt.
  eapply reify_mono; [exact Hvt|lia|done].
Qed.

Ltac read_dict :=
  apply reify_dict; eexists; split; [by rewrite lookup_offset|].
Ltac read_entry :=
  first [ apply map_Forall2_insert_2 | apply map_Forall2_singleton
        | apply map_Forall2_empty ].

Lemma get_provider_config_reads fuel self defaults h tm :
  template fuel h defaults tm →
  ∃ out h', get_provider_config fuel self defaults h = (Ok out, h')
    ∧ reify (4 + fuel) h' out = Some (TDict (config_tree self tm)).
Proof.
  intros (Hr & Hsp & Hsec).
  apply reify_dict_val in Hr as (n & l & m & -> & -> & Hl & Hm).
  unfold get_provider_config.
  destruct (select_reads self h) as (c & h1 & ic & Hnew & Hsel & Hh1 & Hic).
  rewrite (bind_Ok _ _ _ _ _ Hnew). unfold lift at 1.
  rewrite Hsel, (bind_Ok _ _ _ _ _ eq_refl).
  destruct (deepcopy_dict n h1 l m tm) as (hk & mc & Hcopy & Hhk & Hmc).
  { by eapply prefix_lookup_Some. }
  { eapply map_Forall2_impl; [done|]. intros ? v t Hvt.
    eapply reify_mono; [exact Hvt|lia|done]. }
  rewrite (bind_Ok _ _ _ _ _ Hcopy).
  do 2 run_alloc.
  run_section n "sp" tm (Hmc "sp") Hsp.
  do 2 run_alloc. run_unpack. run_alloc.
  assert (Hsec1 : option_Forall2 (reads n hk) (mc0 !! "security")
                    (tm !! "security")).
  { rewrite Hmc0 by done. apply Hmc. }
  run_section n "security" tm Hsec1 Hsec.
  run_alloc. run_unpack. do 2 run_alloc. do 3 run_setitem.
  clear Hrun Hrun0 Hcopy Hsel Hnew.
  assert (Hk : ∀ L, hk `prefix_of` hk ++ L) by (intros; by apply prefix_app_r).
  eexists _, _. split; [done|].
  read_dict; repeat read_entry; try apply reify_bool; read_dict.
  - apply map_Forall2_union; repeat read_entry; try apply reify_str.
    + eapply map_Forall2_reads_mono; [exact Hic|lia|]. by etrans.
    + read_dict; repeat read_entry; apply reify_str.
  - apply map_Forall2_union; repeat read_entry; try apply reify_str.
    + read_dict; repeat read_entry; apply reify_str.
    + eapply map_Forall2_reads_mono; [exact Hbase|lia|done].
  - apply map_Forall2_union; repeat read_entry; try apply reify_bool.
    eapply map_Forall2_reads_mono; [exact Hbase0|lia|done].
Qed.

(** ** What a call may touch *)

Lemma keeps_refl b h : keeps b h h.
Proof. by split. Qed.

Lemma keeps_trans b h1 h2 h3 : keeps b h1 h2 → keeps b h2 h3 → keeps b h1 h3.
Proof. intros [? E1] [? E2]. split; [lia|]. by rewrite E2. Qed.

Lemma keeps_prefix h h' : keeps (length h) h h' → h `prefix_of` h'.
Proof.
  intros [_ Ht]. rewrite firstn_all in Ht. exists (drop (length h) h').
  by rewrite <- Ht at 1; rewrite take_drop.
Qed.

Lemma framed_ret {A} b (P : A → Prop) a : P a → framed b P (ret a).
Proof. intros Ha h _. split; [apply keeps_refl|]. by intros ? [= <-]. Qed.

Lemma framed_lift {A} b (r : result A) : framed b (λ _, True) (lift r).
Proof. intros h _. split; [apply keeps_refl|done]. Qed.

Lemma framed_bind {A B} b (P : A → Prop) (Q : B → Prop) m k :
  framed b P m → (∀ a, P a → framed b Q (k a)) → framed b Q (bind m k).
Proof.
  intros Hm Hk h Hb. destruct (Hm h Hb) as [Hkeep HP]. unfold bind.
  destruct (m h) as [[a|e] h1]; simpl in *; [|done].
  destruct (Hk a (HP a eq_refl) h1) as [Hkeep' HQ]; [destruct Hkeep; lia|].
  split; [by eapply keeps_trans|done].
Qed.

Lemma framed_alloc b o : framed b (fresh b) (alloc o).
Proof.
  intros h Hb. unfold alloc. simpl. split; [split|].
  - rewrite length_app. lia.
  - by apply take_app_le.
  - by intros ? [= <-].
Qed.

Lemma framed_as_dict b e v : framed b (λ _, True) (as_dict e v).
Proof.
  intros h _. unfold as_dict. split; [|done].
  destruct v as [| | | |l]; try apply keeps_refl.
  destruct (h !! l) as [[?|?]|]; apply keeps_refl.
Qed.

Lemma framed_setitem b d k x :
  fresh b d → framed b (λ _, True) (py_setitem d k x).
Proof.
  intros Hd h Hb. unfold py_setitem. split; [|done].
  destruct d as [| | | |l]; try apply keeps_refl.
  destruct (h !! l) as [[m|?]|]; try apply keeps_refl. simpl in *. split.
  - by rewrite length_insert.
  - by apply take_insert_ge.
Qed.

Lemma framed_setdefault b (P : val → Prop) d k dflt :
  fresh b d → framed b P dflt → framed b (λ _, True) (py_setdefault d k dflt).
Proof.
  intros Hd Hdflt. unfold py_setdefault.
  eapply framed_bind; [apply framed_as_dict|]. intros _ _.
  eapply framed_bind; [exact Hdflt|]. intros x _.
  eapply framed_bind; [apply framed_as_dict|]. intros m _.
  destruct (m !! k); [by apply framed_ret|].
  eapply framed_bind; [by apply framed_setitem|]. intros. by apply framed_ret.
Qed.

Lemma framed_forM {A B} b (P : B → Prop) (f : A → M B) l :
  (∀ a, framed b P (f a)) → framed b (λ _, True) (forM f l).
Proof.
  intros Hf. induction l as [|a l IH]; simpl; [by apply framed_ret|].
  eapply framed_bind; [apply Hf|]. intros y _.
  eapply framed_bind; [apply IH|]. intros ys _. by apply framed_ret.
Qed.

Lemma framed_deepcopy b n v : framed b (fresh b) (deepcopy n v).
Proof.
  revert v. induction n as [|n IH]; intros v.
  - destruct v as [| | | |l]; try (by apply framed_ret).
    intros h _. split; [apply keeps_refl|done].
  - destruct v as [| | | |l]; try (by apply framed_ret).
    intros h Hb. simpl. destruct (h !! l) as [[m|xs]|].
    + revert h Hb. eapply framed_bind; [|intros kvs _; apply framed_alloc].
      apply (framed_forM _ (λ _, True)). intros [k v].
      eapply framed_bind; [apply IH|]. intros. by apply framed_ret.
    + revert h Hb. eapply framed_bind; [|intros ys _; apply framed_alloc].
      eapply framed_forM. intros v. apply IH.
    + split; [apply keeps_refl|done].
Qed.

Lemma framed_new_certs b certs : framed b (fresh b) (new_certs certs).
Proof.
  unfold new_certs.
  eapply framed_bind; [|intros kvs _; apply framed_alloc].
  apply (framed_forM _ (λ _, True)). intros [k l].
  eapply framed_bind; [apply framed_alloc|]. intros. by apply framed_ret.
Qed.

Ltac framed_step :=
  first
    [ eapply framed_bind;
      [ first [ apply framed_alloc | apply framed_as_dict
              | apply framed_new_certs | apply framed_lift
              | apply framed_deepcopy
              | (eapply framed_setdefault; [eassumption|apply framed_alloc])
              | (apply framed_setitem; eassumption) ]
      | intros ? ? ]
    | by apply framed_ret ].

Lemma framed_get_provider_config b fuel self defaults :
  framed b (λ _, True) (get_provider_config fuel self defaults).
Proof. unfold get_provider_config, new_dict, py_unpack. repeat framed_step. Qed.

(** The call only adds cells: whatever the outcome, the heap it was given
    is a prefix of the heap it leaves. *)
Lemma get_provider_config_grows fuel self defaults h :
  h `prefix_of` (get_provider_config fuel self defaults h).2.
Proof.
  apply keeps_prefix. by apply (framed_get_provider_config (length h)).
Qed.

(** * The properties of the configuration *)

Lemma example_is_template : template 2 example_heap (VRef 3) example_template.
Proof. repeat split; vm_compute; reflexivity. Qed.

Lemma builds_config fuel self defaults h tm :
  template fuel h defaults tm → builds fuel self defaults h (config_tree self tm).
Proof. apply get_provider_config_reads. Qed.

Lemma builds_det fuel self defaults h to1 to2 :
  builds fuel self defaults h to1 → builds fuel self defaults h to2 → to1 = to2.
Proof.
  intros (out1 & h1 & Hrun1 & Hr1) (out2 & h2 & Hrun2 & Hr2).
  rewrite Hrun1 in Hrun2. injection Hrun2 as <- <-. congruence.
Qed.

Lemma config_tree_idp self tm :
  config_tree self tm !! "idp" = Some (TDict (idp_tree self)).
Proof. done. Qed.

Lemma config_tree_sp self tm :
  config_tree self tm !! "sp"
  = Some (TDict (sp_overlay self ∪ sub_object tm "sp")).
Proof. done. Qed.

Lemma config_tree_security self tm :
  config_tree self tm !! "security"
  = Some (TDict (security_overlay self ∪ sub_object tm "security")).
Proof. done. Qed.

Lemma cert_field_single self x :
  signing_texts self = [x] → encryption_texts self = [x] →
  cert_field self = {[ "x509cert" := TStr x ]}.
Proof.
  intros Hs He. unfold cert_field.
  rewrite (proj2 (single_cert_cond_build self)) by eauto. by rewrite Hs.
Qed.

Lemma cert_field_multi self :
  single_cert_cond (build_certs self) = false →
  cert_field self
  = {[ "x509certMulti" :=
         TDict {[ "signing" := texts_tree (signing_texts self);
                  "encryption" := texts_tree (encryption_texts self) ]} ]}.
Proof.
  intros Hc. unfold cert_field. by rewrite Hc.
Qed.

Lemma single_cert_cond_false self :
  (¬ ∃ x, signing_texts self = [x] ∧ encryption_texts self = [x]) →
  single_cert_cond (build_certs self) = false.
Proof.
  intros Hn. apply not_true_is_false. by rewrite single_cert_cond_build.
Qed.

Lemma idp_tree_entityId self :
  idp_tree self !! "entityId" = Some (TStr (idp_issuer self)).
Proof.
  unfold idp_tree, cert_field. rewrite lookup_union_r; [done|].
  by destruct (single_cert_cond _).
Qed.

Lemma idp_tree_sso self :
  idp_tree self !! "singleSignOnService"
  = Some (TDict {[ "url" := TStr (idp_sso_url self);
                   "binding" := TStr (idp_sso_binding self) ]}).
Proof.
  unfold idp_tree, cert_field. rewrite lookup_union_r; [done|].
  by destruct (single_cert_cond _).
Qed.

(** ** The certificate field *)

(** One certificate in one role and none in the other: the condition of
    lines 153-166 is false, and the entry stored is [x509certMulti]. *)
Lemma one_sided_builds_multi fuel self defaults h tm :
  template fuel h defaults tm →
  (∃ x, signing_texts self = [x] ∧ encryption_texts self = [])
  ∨ (∃ x, signing_texts self = [] ∧ encryption_texts self = [x]) →
  ∃ to ti, builds fuel self defaults h to
    ∧ to !! "idp" = Some (TDict ti)
    ∧ ti !! "x509cert" = None
    ∧ ti !! "x509certMulti"
      = Some (TDict {[ "signing" := texts_tree (signing_texts self);
                       "encryption" := texts_tree (encryption_texts self) ]}).
Proof.
  intros Ht Hone. exists (config_tree self tm), (idp_tree self).
  split; [by apply builds_config|]. split; [done|].
  unfold idp_tree. rewrite cert_field_multi; [done|].
  apply single_cert_cond_false.
  intros (y & Hs & He). destruct Hone as [(x & ? & ?)|(x & ? & ?)]; congruence.
Qed.

(** C1 (scenario A and its mirror image, run on the code).  For the
    provider with the one signing certificate "CERTA" and no encryption
    certificate, the idp section of the configuration holds no [x509cert]:
    it holds [x509certMulti] with "CERTA" in the signing slot and an empty
    encryption slot.  Likewise, with the roles exchanged, it holds
    [x509certMulti] with an empty signing slot. *)
Theorem scenario_A_emits_x509certMulti :
  (∃ to, builds 2 (provider_with ["CERTA"] []) (VRef 3) example_heap to
     ∧ to !! "idp" = Some (TDict
         {[ "entityId" := TStr "https://idp.example/metadata";
            "singleSignOnService" :=
              TDict {[ "url" := TStr "https://idp.example/sso";
                       "binding" := TStr "HTTP-POST" ]};
            "x509certMulti" :=
              TDict {[ "signing" := TList [TStr "CERTA"];
                       "encryption" := TList [] ]} ]}))
  ∧ (∃ to, builds 2 (provider_with [] ["CERTA"]) (VRef 3) example_heap to
     ∧ to !! "idp" = Some (TDict
         {[ "entityId" := TStr "https://idp.example/metadata";
            "singleSignOnService" :=
              TDict {[ "url" := TStr "https://idp.example/sso";
                       "binding" := TStr "HTTP-POST" ]};
            "x509certMulti" :=
              TDict {[ "signing" := TList [];
                       "encryption" := TList [TStr "CERTA"] ]} ]})).
Proof.
  split; eexists; (split; [apply builds_config, example_is_template|]);
    vm_compute; reflexivity.
Qed.

(** C2.  When the signing list and the encryption list each hold exactly
    one text and the two texts are the same, the idp section of the
    configuration holds [x509cert] with that text and no [x509certMulti]. *)
Theorem identical_certificates_emit_x509cert fuel self defaults h tm x :
  template fuel h defaults tm →
  signing_texts self = [x] →
  encryption_texts self = [x] →
  ∃ to ti, builds fuel self defaults h to
    ∧ to !! "idp" = Some (TDict ti)
    ∧ ti !! "x509cert" = Some (TStr x)
    ∧ ti !! "x509certMulti" = None.
Proof.
  intros Ht Hs He. exists (config_tree self tm), (idp_tree self).
  split; [by apply builds_config|]. split; [done|].
  unfold idp_tree. by rewrite (cert_field_single self x).
Qed.

Lemma identical_certificates_witness :
  ∃ to ti, builds 2 (provider_with ["CERTA"] ["CERTA"]) (VRef 3) example_heap to
    ∧ to !! "idp" = Some (TDict ti)
    ∧ ti !! "x509cert" = Some (TStr "CERTA")
    ∧ ti !! "x509certMulti" = None.
Proof.
  apply (identical_certificates_emit_x509cert 2 _ _ _ example_template "CERTA").
  - exact example_is_template.
  - reflexivity.
  - reflexivity.
Defined.

(** C3.  When both lists are empty, or either list holds more than one
    text, or each holds one text and the two differ, the idp section holds
    [x509certMulti]: a dict whose signing slot is the list of the signing
    texts and whose encryption slot is the list of the encryption texts, in
    order (an empty list for an empty input). *)
Theorem other_certificates_emit_x509certMulti fuel self defaults h tm :
  template fuel h defaults tm →
  (signing_texts self = [] ∧ encryption_texts self = [])
  ∨ 1 < length (signing_texts self)
  ∨ 1 < length (encryption_texts self)
  ∨ (∃ x y, signing_texts self = [x] ∧ encryption_texts self = [y] ∧ x ≠ y) →
  ∃ to ti, builds fuel self defaults h to
    ∧ to !! "idp" = Some (TDict ti)
    ∧ ti !! "x509certMulti"
      = Some (TDict {[ "signing" := TList (TStr <$> signing_texts self);
                       "encryption" := TList (TStr <$> encryption_texts self) ]}).
Proof.
  intros Ht Hcase. exists (config_tree self tm), (idp_tree self).
  split; [by apply builds_config|]. split; [done|].
  unfold idp_tree. rewrite cert_field_multi; [done|].
  apply single_cert_cond_false. intros (z & Hs & He).
  rewrite Hs, He in Hcase. simpl in Hcase.
  destruct Hcase as [[? _]|[?|[?|(x & y & ? & ? & ?)]]];
    [done|lia|lia|congruence].
Qed.

Lemma other_certificates_witness :
  ∃ to ti,
    builds 2 (provider_with ["CERTA"; "CERTB"] []) (VRef 3) example_heap to
    ∧ to !! "idp" = Some (TDict ti)
    ∧ ti !! "x509certMulti"
      = Some (TDict {[ "signing" := TList [TStr "CERTA"; TStr "CERTB"];
                       "encryption" := TList [] ]}).
Proof.
  apply (other_certificates_emit_x509certMulti 2
           (provider_with ["CERTA"; "CERTB"] []) _ _ example_template).
  - exact example_is_template.
  - right. left. simpl. lia.
Defined.

(** ** The template is left alone *)

(** C4.  Whatever the provider, the defaults and the outcome of the call,
    every object that existed before the call is unchanged after it, so the
    defaults read after the call as they did before; and a call for another
    provider on the heap the first call leaves builds the configuration it
    would have built on the original heap. *)
Theorem defaults_not_mutated fuel self defaults h :
  let h' := (get_provider_config fuel self defaults h).2 in
  (∀ l o, h !! l = Some o → h' !! l = Some o)
  ∧ (∀ n t, reify n h defaults = Some t → reify n h' defaults = Some t)
  ∧ (∀ self2 tm to, template fuel h defaults tm →
       builds fuel self2 defaults h to → builds fuel self2 defaults h' to).
Proof.
  intros h'. pose proof (get_provider_config_grows fuel self defaults h) as Hg.
  fold h' in Hg. split; [|split].
  - intros l o Hl. by eapply prefix_lookup_Some.
  - intros n t Ht. eapply reify_mono; [exact Ht|lia|done].
  - intros self2 tm to (Hr & Hsp & Hsec) Hto.
    assert (Ht' : template fuel h' defaults tm).
    { split; [|done]. eapply reify_mono; [exact Hr|lia|done]. }
    rewrite (builds_det _ _ _ _ _ _ Hto (builds_config _ self2 _ _ _
               (conj Hr (conj Hsp Hsec)))).
    by apply builds_config.
Qed.

Lemma defaults_not_mutated_witness :
  let h' := (get_provider_config 2 (provider_with ["CERTA"] ["CERTB"])
               (VRef 3) example_heap).2 in
  reify 2 h' (VRef 3) = Some (TDict example_template)
  ∧ builds 2 (provider_with ["CERTA"] []) (VRef 3) h'
      (config_tree (provider_with ["CERTA"] []) example_template).
Proof.
  intros h'.
  destruct (defaults_not_mutated 2 (provider_with ["CERTA"] ["CERTB"])
              (VRef 3) example_heap) as (_ & Hread & Hnext).
  split.
  - apply Hread. vm_compute. reflexivity.
  - apply (Hnext _ example_template).
    + exact example_is_template.
    + apply builds_config, example_is_template.
Defined.

(** ** The idp section *)

(** C5.  The idp section holds the provider's issuer under [entityId], and
    under [singleSignOnService] the dict of the provider's single sign-on
    URL and binding. *)
Theorem idp_names_the_provider fuel self defaults h tm :
  template fuel h defaults tm →
  ∃ to ti, builds fuel self defaults h to
    ∧ to !! "idp" = Some (TDict ti)
    ∧ ti !! "entityId" = Some (TStr (idp_issuer self))
    ∧ ti !! "singleSignOnService"
      = Some (TDict {[ "url" := TStr (idp_sso_url self);
                       "binding" := TStr (idp_sso_binding self) ]}).
Proof.
  intros Ht. exists (config_tree self tm), (idp_tree self).
  split; [by apply builds_config|]. split; [done|].
  split; [apply idp_tree_entityId|apply idp_tree_sso].
Qed.

Lemma idp_names_the_provider_witness :
  ∃ to ti, builds 2 (provider_with ["CERTA"] []) (VRef 3) example_heap to
    ∧ to !! "idp" = Some (TDict ti)
    ∧ ti !! "entityId" = Some (TStr "https://idp.example/metadata")
    ∧ ti !! "singleSignOnService"
      = Some (TDict {[ "url" := TStr "https://idp.example/sso";
                       "binding" := TStr "HTTP-POST" ]}).
Proof.
  apply (idp_names_the_provider 2 (provider_with ["CERTA"] []) _ _
           example_template).
  exact example_is_template.
Defined.

(** C6, as stated, fails: it is not so that no key of the defaults' idp
    sub-object is a key of the idp section.  With the template
    [{..., "idp": {"entityId": "https://other.example"}, ...}] the key
    [entityId] is in both. *)
Lemma idp_key_of_defaults_appears :
  ¬ (∀ fuel self defaults h tm to ti k,
       template fuel h defaults tm →
       builds fuel self defaults h to →
       to !! "idp" = Some (TDict ti) →
       is_Some (sub_object tm "idp" !! k) →
       ti !! k = None).
Proof.
  intros Hclaim.
  assert (Hnone : idp_tree (provider_with ["CERTA"] []) !! "entityId" = None).
  { apply (Hclaim 2 (provider_with ["CERTA"] []) (VRef 3) example_heap
             example_template
             (config_tree (provider_with ["CERTA"] []) example_template)).
    - exact example_is_template.
    - apply builds_config, example_is_template.
    - apply config_tree_idp.
    - eexists. vm_compute. reflexivity. }
  by rewrite idp_tree_entityId in Hnone.
Qed.

(** C6, amended.  The idp section holds exactly one of the keys [x509cert]
    and [x509certMulti]; its only other keys are [entityId] and
    [singleSignOnService]; and it is the same for every template: nothing
    of the defaults' idp sub-object is carried over. *)
Theorem idp_section_replaced fuel self defaults h tm :
  template fuel h defaults tm →
  ∃ to ti, builds fuel self defaults h to
    ∧ to !! "idp" = Some (TDict ti)
    ∧ ((is_Some (ti !! "x509cert") ∧ ti !! "x509certMulti" = None)
       ∨ (ti !! "x509cert" = None ∧ is_Some (ti !! "x509certMulti")))
    ∧ (∀ k, is_Some (ti !! k) →
         k = "entityId" ∨ k = "singleSignOnService"
         ∨ k = "x509cert" ∨ k = "x509certMulti")
    ∧ (∀ fuel2 defaults2 h2 tm2 to2,
         template fuel2 h2 defaults2 tm2 →
         builds fuel2 self defaults2 h2 to2 →
         to2 !! "idp" = Some (TDict ti)).
Proof.
  intros Ht. exists (config_tree self tm), (idp_tree self).
  split; [by apply builds_config|]. split; [done|]. split; [|split].
  - unfold idp_tree, cert_field. destruct (single_cert_cond _).
    + left. split; [by eexists|done].
    + right. split; [done|by eexists].
  - intros k [t Hk]. unfold idp_tree, cert_field in Hk.
    destruct (single_cert_cond _);
      apply lookup_union_Some_raw in Hk as [Hk|[_ Hk]];
      repeat (apply lookup_insert_Some in Hk as [[<- _]|[_ Hk]]; [by auto|]);
      try (apply lookup_singleton_Some in Hk as [<- _]; by auto);
      by rewrite lookup_empty in Hk.
  - intros fuel2 defaults2 h2 tm2 to2 Ht2 Hto2.
    by rewrite (builds_det _ _ _ _ _ _ Hto2 (builds_config _ _ _ _ _ Ht2)).
Qed.

Lemma idp_section_replaced_witness :
  ∃ to ti, builds 2 (provider_with ["CERTA"] []) (VRef 3) example_heap to
    ∧ to !! "idp" = Some (TDict ti)
    ∧ ((is_Some (ti !! "x509cert") ∧ ti !! "x509certMulti" = None)
       ∨ (ti !! "x509cert" = None ∧ is_Some (ti !! "x509certMulti")))
    ∧ (∀ k, is_Some (ti !! k) →
         k = "entityId" ∨ k = "singleSignOnService"
         ∨ k = "x509cert" ∨ k = "x509certMulti")
    ∧ (∀ fuel2 defaults2 h2 tm2 to2,
         template fuel2 h2 defaults2 tm2 →
         builds fuel2 (provider_with ["CERTA"] []) defaults2 h2 to2 →
         to2 !! "idp" = Some (TDict ti)).
Proof.
  apply (idp_section_replaced 2 (provider_with ["CERTA"] []) _ _
           example_template).
  exact example_is_template.
Defined.

(** ** The sp and security sections *)

(** C7.  The sp section is the defaults' sp sub-object (no entries when
    the key is absent) overlaid with [entityId = ""], [NameIDFormat] = the
    provider's nameidformat and [assertionConsumerService] =
    [{url: "", binding: sp_acs_binding}]; any other key of the defaults' sp
    sub-object keeps its value. *)
Theorem sp_section_overlays_defaults fuel self defaults h tm :
  template fuel h defaults tm →
  ∃ to tsp, builds fuel self defaults h to
    ∧ to !! "sp" = Some (TDict tsp)
    ∧ tsp = {[ "entityId" := TStr "";
               "NameIDFormat" := TStr (nameidformat self);
               "assertionConsumerService" :=
                 TDict {[ "url" := TStr "";
                          "binding" := TStr (sp_acs_binding self) ]} ]}
            ∪ sub_object tm "sp"
    ∧ (∀ k, k ≠ "entityId" → k ≠ "NameIDFormat" →
         k ≠ "assertionConsumerService" →
         tsp !! k = sub_object tm "sp" !! k).
Proof.
  intros Ht. eexists (config_tree self tm), _.
  split; [by apply builds_config|]. split; [apply config_tree_sp|].
  split; [done|]. intros k H1 H2 H3. rewrite lookup_union_r; [done|].
  unfold sp_overlay. rewrite !lookup_insert_ne by done.
  by rewrite lookup_singleton_ne.
Qed.

Lemma sp_section_witness :
  ∃ to tsp, builds 2 (provider_with ["CERTA"] []) (VRef 3) example_heap to
    ∧ to !! "sp" = Some (TDict tsp)
    ∧ tsp = {[ "entityId" := TStr "";
               "NameIDFormat" :=
                 TStr "urn:oasis:names:tc:SAML:1.1:nameid-format:unspecified";
               "assertionConsumerService" :=
                 TDict {[ "url" := TStr "";
                          "binding" := TStr "HTTP-POST" ]} ]}
            ∪ {[ "entityId" := TStr "old"; "x509cert" := TStr "" ]}
    ∧ (∀ k, k ≠ "entityId" → k ≠ "NameIDFormat" →
         k ≠ "assertionConsumerService" →
         tsp !! k = sub_object example_template "sp" !! k).
Proof.
  apply (sp_section_overlays_defaults 2 (provider_with ["CERTA"] []) _ _
           example_template).
  exact example_is_template.
Defined.

(** C8.  The security section is the defaults' security sub-object (no
    entries when the key is absent) overlaid with [wantMessagesSigned],
    [wantAssertionsSigned] and [wantAssertionsEncrypted] from the
    provider's flags; any other key of the defaults' security sub-object
    keeps its value. *)
Theorem security_section_overlays_defaults fuel self defaults h tm :
  template fuel h defaults tm →
  ∃ to tsec, builds fuel self defaults h to
    ∧ to !! "security" = Some (TDict tsec)
    ∧ tsec = {[ "wantMessagesSigned" := TBool (sec_want_messages_signed self);
                "wantAssertionsSigned" :=
                  TBool (sec_want_assertions_signed self);
                "wantAssertionsEncrypted" :=
                  TBool (sec_want_assertions_encrypted self) ]}
             ∪ sub_object tm "security"
    ∧ (∀ k, k ≠ "wantMessagesSigned" → k ≠ "wantAssertionsSigned" →
         k ≠ "wantAssertionsEncrypted" →
         tsec !! k = sub_object tm "security" !! k).
Proof.
  intros Ht. eexists (config_tree self tm), _.
  split; [by apply builds_config|]. split; [apply config_tree_security|].
  split; [done|]. intros k H1 H2 H3. rewrite lookup_union_r; [done|].
  unfold security_overlay. rewrite !lookup_insert_ne by done.
  by rewrite lookup_singleton_ne.
Qed.

Lemma security_section_witness :
  ∃ to tsec, builds 2 (provider_with ["CERTA"] []) (VRef 3) example_heap to
    ∧ to !! "security" = Some (TDict tsec)
    ∧ tsec = {[ "wantMessagesSigned" := TBool true;
                "wantAssertionsSigned" := TBool false;
                "wantAssertionsEncrypted" := TBool false ]}
             ∪ {[ "wantNameId" := TBool true ]}
    ∧ (∀ k, k ≠ "wantMessagesSigned" → k ≠ "wantAssertionsSigned" →
         k ≠ "wantAssertionsEncrypted" →
         tsec !! k = sub_object example_template "security" !! k).
Proof.
  apply (security_section_overlays_defaults 2 (provider_with ["CERTA"] [])
           _ _ example_template).
  exact example_is_template.
Defined.

(** ** The top level *)

(** C9.  The keys of the configuration are exactly [idp], [sp],
    [security], [debug], [lowercase_urlencoding] and [idp_initiated_auth]:
    no other top-level key of the defaults is in it. *)
Theorem top_level_keys fuel self defaults h tm :
  template fuel h defaults tm →
  ∃ to, builds fuel self defaults h to
    ∧ dom to = ({[ "idp"; "sp"; "security"; "debug";
                   "lowercase_urlencoding"; "idp_initiated_auth" ]}
                : gset string)
    ∧ (∀ k, k ≠ "idp" → k ≠ "sp" → k ≠ "security" → k ≠ "debug" →
         k ≠ "lowercase_urlencoding" → k ≠ "idp_initiated_auth" →
         to !! k = None).
Proof.
  intros Ht. exists (config_tree self tm).
  split; [by apply builds_config|]. split.
  - unfold config_tree. rewrite !dom_insert_L, dom_singleton_L. set_solver.
  - intros k ? ? ? ? ? ?. unfold config_tree.
    rewrite !lookup_insert_ne by done. by rewrite lookup_singleton_ne.
Qed.

Lemma top_level_keys_witness :
  ∃ to, builds 2 (provider_with ["CERTA"] []) (VRef 3) example_heap to
    ∧ dom to = ({[ "idp"; "sp"; "security"; "debug";
                   "lowercase_urlencoding"; "idp_initiated_auth" ]}
                : gset string)
    ∧ (∀ k, k ≠ "idp" → k ≠ "sp" → k ≠ "security" → k ≠ "debug" →
         k ≠ "lowercase_urlencoding" → k ≠ "idp_initiated_auth" →
         to !! k = None).
Proof.
  apply (top_level_keys 2 (provider_with ["CERTA"] []) _ _ example_template).
  exact example_is_template.
Defined.

(** ** The unreachable branch *)

(** C10.  The [certs] dict always has both keys, so its length is never 1;
    the value stored under [x509cert] is chosen by the [if] branch of lines
    167-168; and whenever [x509cert] is stored, its value is
    [certs["signing"][0]]. *)
Theorem certs_has_both_keys self :
  let certs := build_certs self in
  is_Some (certs !! "signing")
  ∧ is_Some (certs !! "encryption")
  ∧ (size certs =? 1) = false
  ∧ single_cert_value certs = item0 certs "signing"
  ∧ (∀ certs_ref ic v,
       select_idp_certificates certs certs_ref = Ok ic →
       ic !! "x509cert" = Some v →
       ∃ x, item0 certs "signing" = Ok x ∧ v = VStr x).
Proof.
  intros certs. subst certs. split; [|split; [|split; [|split]]].
  - rewrite build_certs_signing. by eexists.
  - rewrite build_certs_encryption. by eexists.
  - by rewrite build_certs_size.
  - unfold single_cert_value. rewrite build_certs_signing.
    by rewrite bool_decide_true.
  - intros c ic v. unfold select_idp_certificates.
    destruct (single_cert_cond (build_certs self)) eqn:Hc.
    + apply single_cert_cond_build in Hc as (x & Hs & He).
      rewrite (single_cert_value_build self x []) by done.
      intros [= <-] Hv. rewrite lookup_singleton_eq in Hv.
      injection Hv as <-. exists x. split; [|done].
      unfold item0. by rewrite build_certs_signing, Hs.
    + intros [= <-] Hv. by rewrite lookup_singleton_ne in Hv.
Qed.

Lemma certs_has_both_keys_witness :
  ∃ x, item0 (build_certs (provider_with ["CERTA"] ["CERTA"])) "signing" = Ok x
       ∧ VStr "CERTA" = VStr x.
Proof.
  apply (certs_has_both_keys (provider_with ["CERTA"] ["CERTA"]))
    with (certs_ref := VRef 0) (ic := {[ "x509cert" := VStr "CERTA" ]}).
  - vm_compute. reflexivity.
  - reflexivity.
Defined.

(** * Further properties of get_provider_config *)

(** ** What the configuration takes from the provider and from the defaults *)

(** X1.  Lines 204-206: the top-level [debug], [lowercase_urlencoding] and
    [idp_initiated_auth] of the configuration are the provider's flags,
    whatever the defaults hold under these keys. *)
Theorem top_level_flags_from_provider fuel self defaults h tm :
  template fuel h defaults tm →
  ∃ to, builds fuel self defaults h to
    ∧ to !! "debug" = Some (TBool (debug self))
    ∧ to !! "lowercase_urlencoding" = Some (TBool (lowercase_urlencoding self))
    ∧ to !! "idp_initiated_auth" = Some (TBool (idp_initiated_auth self)).
Proof.
  intros Ht. exists (config_tree self tm).
  split; [by apply builds_config|]. by repeat split.
Qed.

Lemma top_level_flags_witness :
  ∃ to, builds 2 (provider_with ["CERTA"] []) (VRef 3) example_heap to
    ∧ to !! "debug" = Some (TBool false)
    ∧ to !! "lowercase_urlencoding" = Some (TBool false)
    ∧ to !! "idp_initiated_auth" = Some (TBool false).
Proof.
  apply (top_level_flags_from_provider 2 (provider_with ["CERTA"] []) _ _
           example_template).
  exact example_is_template.
Defined.

(** X2.  Lines 153-172 as they behave: the idp section holds [x509cert]
    exactly when the signing list and the encryption list each hold one
    text and the two texts are the same, and holds [x509certMulti] in every
    other case. *)
Theorem x509cert_iff_identical_singletons fuel self defaults h tm :
  template fuel h defaults tm →
  ∃ to ti, builds fuel self defaults h to
    ∧ to !! "idp" = Some (TDict ti)
    ∧ (is_Some (ti !! "x509cert") ↔
       ∃ x, signing_texts self = [x] ∧ encryption_texts self = [x])
    ∧ (is_Some (ti !! "x509certMulti") ↔
       ¬ ∃ x, signing_texts self = [x] ∧ encryption_texts self = [x]).
Proof.
  intros Ht. exists (config_tree self tm), (idp_tree self).
  split; [by apply builds_config|]. split; [done|].
  rewrite <- (single_cert_cond_build self). unfold idp_tree, cert_field.
  destruct (single_cert_cond (build_certs self)); split; split;
    try done; try (intros _; by eexists); try (by intros []).
Qed.

Lemma x509cert_iff_witness :
  ∃ to ti, builds 2 (provider_with ["CERTA"] ["CERTB"]) (VRef 3) example_heap to
    ∧ to !! "idp" = Some (TDict ti)
    ∧ (is_Some (ti !! "x509cert") ↔
       ∃ x, ["CERTA"] = [x] ∧ ["CERTB"] = [x])
    ∧ (is_Some (ti !! "x509certMulti") ↔
       ¬ ∃ x, ["CERTA"] = [x] ∧ ["CERTB"] = [x]).
Proof.
  apply (x509cert_iff_identical_singletons 2
           (provider_with ["CERTA"] ["CERTB"]) _ _ example_template).
  exact example_is_template.
Defined.

Lemma other_is_template : template 2 other_heap (VRef 2) other_template.
Proof. repeat split; vm_compute; reflexivity. Qed.

(** X3.  Of the defaults, only the [sp] and the [security] sub-objects
    reach the configuration: two templates with the same two sub-objects
    give the same configuration, whatever else they hold (an [idp]
    section, top-level flags, other keys). *)
Theorem only_sp_and_security_matter
    fuel1 fuel2 self defaults1 defaults2 h1 h2 tm1 tm2 to :
  template fuel1 h1 defaults1 tm1 →
  template fuel2 h2 defaults2 tm2 →
  sub_object tm1 "sp" = sub_object tm2 "sp" →
  sub_object tm1 "security" = sub_object tm2 "security" →
  builds fuel1 self defaults1 h1 to →
  builds fuel2 self defaults2 h2 to.
Proof.
  intros Ht1 Ht2 Hsp Hsec Hto.
  rewrite (builds_det _ _ _ _ _ _ Hto (builds_config _ self _ _ _ Ht1)).
  unfold config_tree. rewrite Hsp, Hsec. by apply builds_config.
Qed.

Lemma only_sp_and_security_witness :
  builds 2 (provider_with ["CERTA"] ["CERTA"]) (VRef 2) other_heap
    (config_tree (provider_with ["CERTA"] ["CERTA"]) example_template).
Proof.
  apply (only_sp_and_security_matter 2 2 _ (VRef 3) (VRef 2)
           example_heap other_heap example_template other_template).
  - exact example_is_template.
  - exact other_is_template.
  - reflexivity.
  - reflexivity.
  - apply builds_config, example_is_template.
Defined.

Lemma union_absorbs {A} (o2 o1 s : gmap string A) :
  dom o1 ⊆ dom o2 → o2 ∪ (o1 ∪ s) = o2 ∪ s.
Proof.
  intros Hdom. apply map_eq. intros k. rewrite !lookup_union.
  destruct (o2 !! k) as [x|] eqn:Hk; [by destruct (o1 !! k), (s !! k)|].
  apply not_elem_of_dom in Hk.
  assert (o1 !! k = None) as -> by (apply not_elem_of_dom; set_solver).
  by destruct (s !! k).
Qed.

Lemma config_tree_absorbs p1 p2 tm :
  config_tree p2 (config_tree p1 tm) = config_tree p2 tm.
Proof.
  unfold config_tree at 1 3. do 3 f_equal.
  change (sub_object (config_tree p1 tm) "sp")
    with (sp_overlay p1 ∪ sub_object tm "sp").
  change (sub_object (config_tree p1 tm) "security")
    with (security_overlay p1 ∪ sub_object tm "security").
  rewrite !union_absorbs; [done| |].
  - unfold security_overlay. by rewrite !dom_insert_L, !dom_singleton_L.
  - unfold sp_overlay. by rewrite !dom_insert_L, !dom_singleton_L.
Qed.

(** X4.  A configuration built for one provider can serve as the defaults
    of a call for another: the second call builds what it builds from the
    original defaults, so nothing of the first provider (its idp section,
    its sp and security entries, its flags) is left in the result. *)
Theorem rebuilding_from_a_configuration fuel p1 p2 defaults h tm :
  template fuel h defaults tm →
  ∃ out1 h1, get_provider_config fuel p1 defaults h = (Ok out1, h1)
    ∧ ∀ to, builds fuel p2 defaults h to → builds (4 + fuel) p2 out1 h1 to.
Proof.
  intros Ht.
  destruct (get_provider_config_reads fuel p1 defaults h tm Ht)
    as (out1 & h1 & Hrun & Hread).
  exists out1, h1. split; [done|]. intros to Hto.
  rewrite (builds_det _ _ _ _ _ _ Hto (builds_config _ p2 _ _ _ Ht)).
  rewrite <- (config_tree_absorbs p1 p2 tm).
  apply builds_config. by repeat split.
Qed.

Lemma rebuilding_witness :
  ∃ out1 h1,
    get_provider_config 2 (provider_with ["CERTA"] ["CERTA"]) (VRef 3)
      example_heap = (Ok out1, h1)
    ∧ builds 6 (provider_with ["CERTB"; "CERTC"] []) out1 h1
        (config_tree (provider_with ["CERTB"; "CERTC"] []) example_template).
Proof.
  destruct (rebuilding_from_a_configuration 2
              (provider_with ["CERTA"] ["CERTA"])
              (provider_with ["CERTB"; "CERTC"] []) (VRef 3) example_heap
              example_template example_is_template)
    as (out1 & h1 & Hrun & Hnext).
  exists out1, h1. split; [exact Hrun|].
  apply Hnext, builds_config, example_is_template.
Defined.

Lemma renamed_signing_texts n f p :
  signing_texts (renamed n f p) = signing_texts p.
Proof.
  unfold signing_texts, values_list_certificate. simpl.
  rewrite <- list_fmap_compose. by apply list_fmap_ext.
Qed.

Lemma renamed_encryption_texts n f p :
  encryption_texts (renamed n f p) = encryption_texts p.
Proof.
  unfold encryption_texts, values_list_certificate. simpl.
  rewrite <- list_fmap_compose. by apply list_fmap_ext.
Qed.

(** X5.  The configuration takes only the [certificate] text of each
    certificate record (lines 141-146) and never the provider's [name]:
    renaming the provider or its certificates changes nothing. *)
Theorem names_do_not_matter fuel n f self defaults h tm to :
  template fuel h defaults tm →
  builds fuel self defaults h to →
  builds fuel (renamed n f self) defaults h to.
Proof.
  intros Ht Hto.
  rewrite (builds_det _ _ _ _ _ _ Hto (builds_config _ self _ _ _ Ht)).
  replace (config_tree self tm) with (config_tree (renamed n f self) tm);
    [by apply builds_config|].
  unfold config_tree, idp_tree, cert_field, build_certs.
  fold (signing_texts (renamed n f self)) (encryption_texts (renamed n f self)).
  fold (signing_texts self) (encryption_texts self).
  by rewrite renamed_signing_texts, renamed_encryption_texts.
Qed.

Lemma names_do_not_matter_witness :
  builds 2 (renamed "other" (λ c, "cert-" ++ c)%string
              (provider_with ["CERTA"] ["CERTB"]))
    (VRef 3) example_heap
    (config_tree (provider_with ["CERTA"] ["CERTB"]) example_template).
Proof.
  apply (names_do_not_matter 2 _ _ _ _ _ example_template).
  - exact example_is_template.
  - apply builds_config, example_is_template.
Defined.

(** ** The certificate subscripts are safe *)

Lemma two_keys_size {A} (m : gmap string A) k1 k2 :
  is_Some (m !! k1) → is_Some (m !! k2) → k1 ≠ k2 → size m ≠ 1.
Proof.
  intros H1 H2 Hne Hsize.
  pose proof (map_size_delete_Some k1 m H1) as Hdel. rewrite Hsize in Hdel.
  apply (map_size_ne_0_lookup_2 (delete k1 m) k2); [|done].
  by rewrite lookup_delete_ne.
Qed.

Lemma has_one_item0 certs k :
  has_one certs k = true → ∃ x, certs !! k = Some [x] ∧ item0 certs k = Ok x.
Proof.
  unfold has_one, item0. destruct (certs !! k) as [[|x [|??]]|]; try done.
  eauto.
Qed.

(** Where the condition of lines 153-166 holds, lines 167-170 find the
    element they read. *)
Lemma single_cert_value_ok certs :
  single_cert_cond certs = true →
  ∃ x, single_cert_value certs = Ok x
    ∧ (item0 certs "signing" = Ok x
       ∨ (certs !! "signing" = None ∧ item0 certs "encryption" = Ok x)).
Proof.
  intros Hc. unfold single_cert_cond in Hc. unfold single_cert_value.
  apply orb_true_iff in Hc as [[Hsize Hone]%andb_true_iff|[Hs _]%andb_true_iff].
  - apply Nat.eqb_eq in Hsize.
    destruct (certs !! "signing") as [l|] eqn:Hsig.
    + rewrite bool_decide_true by eauto.
      apply orb_true_iff in Hone as [Hs|He].
      * apply has_one_item0 in Hs as (x & _ & Hx). eauto.
      * apply has_one_item0 in He as (x & He & _).
        destruct (two_keys_size certs "signing" "encryption"); eauto.
    + rewrite bool_decide_false by (by intros [? ?]).
      apply orb_true_iff in Hone as [Hs|He].
      * apply has_one_item0 in Hs as (x & ? & _). congruence.
      * apply has_one_item0 in He as (x & _ & Hx). eauto.
  - apply has_one_item0 in Hs as (x & Hsig & Hx).
    rewrite bool_decide_true by (rewrite Hsig; eauto). eauto.
Qed.

Lemma select_cases certs certs_ref :
  (∃ x, select_idp_certificates certs certs_ref = Ok {[ "x509cert" := VStr x ]})
  ∨ select_idp_certificates certs certs_ref = Ok {[ "x509certMulti" := certs_ref ]}.
Proof.
  unfold select_idp_certificates.
  destruct (single_cert_cond certs) eqn:Hc; [left|by right].
  destruct (single_cert_value_ok certs Hc) as (x & -> & _). eauto.
Qed.

(** X6.  Lines 152-172 on any [certs] dict, with either key missing or
    either list empty: the subscripts [certs[...][0]] are never evaluated
    where they would raise, and exactly one entry is stored, [x509cert]
    (the first signing text, or the first encryption text when there is no
    signing key) or [x509certMulti] (the [certs] object). *)
Theorem select_idp_certificates_total certs certs_ref :
  (∃ x, select_idp_certificates certs certs_ref = Ok {[ "x509cert" := VStr x ]}
        ∧ (item0 certs "signing" = Ok x
           ∨ (certs !! "signing" = None ∧ item0 certs "encryption" = Ok x)))
  ∨ select_idp_certificates certs certs_ref = Ok {[ "x509certMulti" := certs_ref ]}.
Proof.
  unfold select_idp_certificates.
  destruct (single_cert_cond certs) eqn:Hc; [left|by right].
  destruct (single_cert_value_ok certs Hc) as (x & Hval & Hx).
  exists x. split; [|exact Hx]. by rewrite Hval.
Qed.

(** ** What the call raises *)

Lemma bind_Raise {A B} (m : M A) (k : A → M B) h e h' :
  m h = (Raise e, h') → bind m k h = (Raise e, h').
Proof. unfold bind. by intros ->. Qed.

Lemma bind_bind_Raise {A B C} (m : M A) (f : A → M B) (k : B → M C) h e h' :
  (x <- m ;; f x) h = (Raise e, h') →
  (x <- m ;; y <- f x ;; k y) h = (Raise e, h').
Proof.
  unfold bind. destruct (m h) as [[a|e'] h1]; [|by intros [= -> ->]].
  destruct (f a h1) as [[b'|e'] h2]; [done|]. by intros [= -> ->].
Qed.

(** A value that does not read as a dict is no dict. *)
Lemma as_dict_not_dict e n h v t h' :
  reify n h v = Some t → (∀ tm, t ≠ TDict tm) → h `prefix_of` h' →
  as_dict e v h' = (Raise e, h').
Proof.
  intros Hv Ht Hh. unfold as_dict. destruct v as [| | | |l]; try done.
  apply reify_ref_inv in Hv as (n' & -> & [(m & tm & -> & _)|
                                            (xs & ts & -> & Hl & _)]).
  - by destruct (Ht tm).
  - by rewrite (prefix_lookup_Some _ _ _ _ Hl Hh).
Qed.

(** [config.setdefault(k, dict())] on the copy, where the template holds
    under [k] something that is no dict: the unpacking raises. *)
Lemma section_step_fail fuel k hk mc rest (tm : gmap string tree) t :
  option_Forall2 (reads fuel hk) (mc !! k) (tm !! k) →
  tm !! k = Some t → (∀ s, t ≠ TDict s) →
  (s0 <- py_setdefault (VRef (length hk)) k (new_dict ∅) ;; py_unpack s0)
    (hk ++ ODict mc :: rest)
  = (Raise TypeError, hk ++ ODict mc :: rest ++ [ODict ∅]).
Proof.
  intros Hk Hkt Ht. rewrite Hkt in Hk. inversion Hk as [y t' Hy Hmc|]; subst.
  unfold bind, py_setdefault, bind, as_dict at 1 2, new_dict, alloc. simpl.
  rewrite lookup_base. rewrite <- app_assoc. simpl. rewrite lookup_base.
  rewrite <- Hmc. simpl. unfold py_unpack.
  eapply as_dict_not_dict; [exact Hy|done|by apply prefix_app_r].
Qed.

(** X7.  Line 185: when the defaults are no dict (None, a number, a
    string, a list), [config.setdefault] raises AttributeError. *)
Theorem defaults_must_be_a_dict fuel self defaults h t :
  reify fuel h defaults = Some t →
  (∀ tm, t ≠ TDict tm) →
  (get_provider_config fuel self defaults h).1 = Raise AttributeError.
Proof.
  intros Hr Ht. unfold get_provider_config.
  destruct (select_reads self h) as (c & h1 & ic & Hnew & Hsel & Hh1 & Hic).
  rewrite (bind_Ok _ _ _ _ _ Hnew). unfold lift at 1.
  rewrite Hsel, (bind_Ok _ _ _ _ _ eq_refl).
  destruct (deepcopy_reads fuel h1 defaults t) as (v' & h2 & Hcopy & Hh2 & Hv').
  { eapply reify_mono; [exact Hr|lia|done]. }
  rewrite (bind_Ok _ _ _ _ _ Hcopy).
  do 2 run_alloc. unfold py_setdefault.
  erewrite bind_Raise; [done|]. erewrite bind_Raise; [done|].
  eapply as_dict_not_dict; [exact Hv'|done|by apply prefix_app_r].
Qed.

Lemma defaults_must_be_a_dict_witness :
  (get_provider_config 1 (provider_with ["CERTA"] []) (VRef 0)
     [OList [VStr "sp"; VStr "security"]]).1
  = Raise AttributeError.
Proof.
  apply (defaults_must_be_a_dict 1 _ _ _ (TList [TStr "sp"; TStr "security"])).
  - vm_compute. reflexivity.
  - intros tm. discriminate.
Defined.

(** X8.  Line 185: when the defaults are a dict whose [sp] entry is no
    mapping, the unpacking [**config.setdefault("sp", dict())] raises
    TypeError. *)
Theorem sp_must_be_a_mapping fuel self defaults h tm t :
  reify fuel h defaults = Some (TDict tm) →
  tm !! "sp" = Some t →
  (∀ s, t ≠ TDict s) →
  (get_provider_config fuel self defaults h).1 = Raise TypeError.
Proof.
  intros Hr Hsp Ht.
  apply reify_dict_val in Hr as (n & l & m & -> & -> & Hl & Hm).
  unfold get_provider_config.
  destruct (select_reads self h) as (c & h1 & ic & Hnew & Hsel & Hh1 & Hic).
  rewrite (bind_Ok _ _ _ _ _ Hnew). unfold lift at 1.
  rewrite Hsel, (bind_Ok _ _ _ _ _ eq_refl).
  destruct (deepcopy_dict n h1 l m tm) as (hk & mc & Hcopy & Hhk & Hmc).
  { by eapply prefix_lookup_Some. }
  { eapply map_Forall2_reads_mono; [exact Hm|lia|done]. }
  rewrite (bind_Ok _ _ _ _ _ Hcopy).
  do 2 run_alloc.
  by erewrite bind_bind_Raise
    by (eapply (section_step_fail n "sp" hk mc _ tm t); [apply Hmc|done|done]).
Qed.

Lemma sp_must_be_a_mapping_witness :
  (get_provider_config 1 (provider_with ["CERTA"] []) (VRef 0)
     [ODict {[ "sp" := VStr "https://sp.example" ]}]).1
  = Raise TypeError.
Proof.
  apply (sp_must_be_a_mapping 1 _ _ _
           {[ "sp" := TStr "https://sp.example" ]}
           (TStr "https://sp.example")).
  - vm_compute. reflexivity.
  - reflexivity.
  - intros s. discriminate.
Defined.

(** X9.  Line 196: when the defaults are a dict whose [sp] entry is absent
    or a dict and whose [security] entry is no mapping, the unpacking
    [**config.setdefault("security", dict())] raises TypeError. *)
Theorem security_must_be_a_mapping fuel self defaults h tm t :
  reify fuel h defaults = Some (TDict tm) →
  is_section tm "sp" = true →
  tm !! "security" = Some t →
  (∀ s, t ≠ TDict s) →
  (get_provider_config fuel self defaults h).1 = Raise TypeError.
Proof.
  intros Hr Hsp Hsec Ht.
  apply reify_dict_val in Hr as (n & l & m & -> & -> & Hl & Hm).
  unfold get_provider_config.
  destruct (select_reads self h) as (c & h1 & ic & Hnew & Hsel & Hh1 & Hic).
  rewrite (bind_Ok _ _ _ _ _ Hnew). unfold lift at 1.
  rewrite Hsel, (bind_Ok _ _ _ _ _ eq_refl).
  destruct (deepcopy_dict n h1 l m tm) as (hk & mc & Hcopy & Hhk & Hmc).
  { by eapply prefix_lookup_Some. }
  { eapply map_Forall2_reads_mono; [exact Hm|lia|done]. }
  rewrite (bind_Ok _ _ _ _ _ Hcopy).
  do 2 run_alloc.
  run_section n "sp" tm (Hmc "sp") Hsp.
  do 2 run_alloc. run_unpack. run_alloc.
  assert (Hsec1 : option_Forall2 (reads n hk) (mc0 !! "security")
                    (tm !! "security")).
  { rewrite Hmc0 by done. apply Hmc. }
  by erewrite bind_bind_Raise
    by (eapply (section_step_fail n "security" hk mc0 _ tm t); done).
Qed.

Lemma security_must_be_a_mapping_witness :
  (get_provider_config 1 (provider_with ["CERTA"] []) (VRef 0)
     [ODict {[ "security" := VBool true ]}]).1
  = Raise TypeError.
Proof.
  apply (security_must_be_a_mapping 1 _ _ _
           {[ "security" := TBool true ]} (TBool true)).
  - vm_compute. reflexivity.
  - reflexivity.
  - reflexivity.
  - intros s. discriminate.
Defined.

Lemma throws_ret {A} (E : exn → Prop) (a : A) : throws E (ret a).
Proof. by intros h e. Qed.

Lemma throws_bind {A B} (E : exn → Prop) (m : M A) (k : A → M B) :
  throws E m → (∀ a, throws E (k a)) → throws E (bind m k).
Proof.
  intros Hm Hk h e. unfold bind. specialize (Hm h).
  destruct (m h) as [[a|e'] h1]; simpl in *; [apply Hk|].
  intros [= <-]. by apply Hm.
Qed.

Lemma throws_alloc (E : exn → Prop) o : throws E (alloc o).
Proof. by intros h e. Qed.

Lemma throws_as_dict (E : exn → Prop) e v : E e → throws E (as_dict e v).
Proof.
  intros He h e'. unfold as_dict.
  destruct v as [| | | |l]; simpl; try (by intros [= <-]).
  destruct (h !! l) as [[?|?]|]; simpl; by intros [= <-].
Qed.

Lemma throws_setitem (E : exn → Prop) d k x :
  E TypeError → throws E (py_setitem d k x).
Proof.
  intros He h e'. unfold py_setitem.
  destruct d as [| | | |l]; simpl; try (by intros [= <-]).
  destruct (h !! l) as [[?|?]|]; simpl; by intros [= <-].
Qed.

Lemma throws_setdefault (E : exn → Prop) d k dflt :
  E AttributeError → E TypeError → throws E dflt →
  throws E (py_setdefault d k dflt).
Proof.
  intros Ha Ht Hd. unfold py_setdefault.
  apply throws_bind; [by apply throws_as_dict|]. intros _.
  apply throws_bind; [done|]. intros x.
  apply throws_bind; [by apply throws_as_dict|]. intros m.
  destruct (m !! k); [apply throws_ret|].
  apply throws_bind; [by apply throws_setitem|]. intros. apply throws_ret.
Qed.

Lemma throws_forM {A B} (E : exn → Prop) (f : A → M B) l :
  (∀ a, throws E (f a)) → throws E (forM f l).
Proof.
  intros Hf. induction l as [|a l IH]; simpl; [apply throws_ret|].
  apply throws_bind; [apply Hf|]. intros y.
  apply throws_bind; [apply IH|]. intros ys. apply throws_ret.
Qed.

Lemma throws_deepcopy (E : exn → Prop) n v :
  E RecursionError → E TypeError → throws E (deepcopy n v).
Proof.
  intros Hr Ht. revert v. induction n as [|n IH]; intros v.
  - destruct v as [| | | |l]; try apply throws_ret. intros h e [= <-]. done.
  - destruct v as [| | | |l]; try apply throws_ret.
    intros h e. simpl. destruct (h !! l) as [[m|xs]|]; [| |by intros [= <-]].
    + revert h e. apply throws_bind; [|intros; apply throws_alloc].
      apply throws_forM. intros [k v].
      apply throws_bind; [apply IH|]. intros. apply throws_ret.
    + revert h e. apply throws_bind; [|intros; apply throws_alloc].
      apply throws_forM. intros v. apply IH.
Qed.

Lemma throws_new_certs (E : exn → Prop) certs : throws E (new_certs certs).
Proof.
  unfold new_certs. apply throws_bind; [|intros; apply throws_alloc].
  apply throws_forM. intros [k l].
  apply throws_bind; [apply throws_alloc|]. intros. apply throws_ret.
Qed.

Lemma throws_select (E : exn → Prop) certs c :
  throws E (lift (select_idp_certificates certs c)).
Proof.
  intros h e. unfold lift. simpl.
  by destruct (select_cases certs c) as [(x & ->)| ->].
Qed.

Ltac throws_step :=
  first
    [ apply throws_ret
    | apply throws_bind;
      [ first [ apply throws_alloc | apply throws_select
              | apply throws_new_certs
              | (apply throws_as_dict; unfold from_the_defaults; tauto)
              | (apply throws_setitem; unfold from_the_defaults; tauto)
              | (apply throws_deepcopy; unfold from_the_defaults; tauto)
              | (apply throws_setdefault;
                 [ unfold from_the_defaults; tauto
                 | unfold from_the_defaults; tauto
                 | apply throws_alloc ]) ]
      | intros ? ] ].

(** X10.  Whatever the provider and the defaults, the call raises nothing
    but AttributeError, TypeError or RecursionError, all three from
    defaults that are no template; the subscripts [certs[...][0]] of lines
    164-170 raise no KeyError and no IndexError, also for a provider
    without certificates. *)
Theorem only_the_defaults_raise fuel self defaults h e :
  (get_provider_config fuel self defaults h).1 = Raise e →
  e = AttributeError ∨ e = TypeError ∨ e = RecursionError.
Proof.
  revert h e. change (throws from_the_defaults
                        (get_provider_config fuel self defaults)).
  unfold get_provider_config, new_dict, py_unpack. repeat throws_step.
Qed.

Lemma only_the_defaults_raise_witness :
  AttributeError = AttributeError ∨ AttributeError = TypeError
  ∨ AttributeError = RecursionError.
Proof.
  apply (only_the_defaults_raise 1 (provider_with [] []) VNone []).
  vm_compute. reflexivity.
Defined.

(** ** The result shares nothing with what was there before *)

Lemma isolating_ret {A} b (P : A → Prop) a : P a → isolating b P (ret a).
Proof. intros Ha h _ Hsep. split; [done|]. split; [done|]. by intros ? [= <-]. Qed.

Lemma isolating_lift {A} b (P : A → Prop) (r : result A) :
  (∀ a, r = Ok a → P a) → isolating b P (lift r).
Proof. intros Hr h _ Hsep. by repeat split. Qed.

Lemma isolating_bind {A B} b (P : A → Prop) (Q : B → Prop) m k :
  isolating b P m → (∀ a, P a → isolating b Q (k a)) → isolating b Q (bind m k).
Proof.
  intros Hm Hk h Hb Hsep. destruct (Hm h Hb Hsep) as (Hlen & Hsep1 & HP).
  unfold bind. destruct (m h) as [[a|e] h1]; simpl in *; [|done].
  destruct (Hk a (HP a eq_refl) h1) as (Hlen' & Hsep2 & HQ); [lia|done|].
  split; [lia|done].
Qed.

Lemma isolating_alloc b o : cell_above b o → isolating b (fresh b) (alloc o).
Proof.
  intros Ho h Hb Hsep. unfold alloc. simpl. split; [|split].
  - rewrite length_app. lia.
  - intros l o' Hl Hlook. apply lookup_app_Some in Hlook as [Hlook|[_ Hlook]].
    + by eapply Hsep.
    + apply list_lookup_singleton_Some in Hlook as [_ <-]. done.
  - by intros ? [= <-].
Qed.

Lemma isolating_as_dict b e v :
  fresh b v → isolating b (map_Forall (λ _, fresh b)) (as_dict e v).
Proof.
  intros Hv h Hb Hsep. unfold as_dict.
  destruct v as [| | | |l]; try by repeat split.
  destruct (h !! l) as [[m|?]|] eqn:Hl; try by repeat split.
  split; [done|]. split; [done|]. intros ? [= <-]. by apply (Hsep l (ODict m)).
Qed.

Lemma isolating_setitem b d k x :
  fresh b d → fresh b x → isolating b (λ _, True) (py_setitem d k x).
Proof.
  intros Hd Hx h Hb Hsep. unfold py_setitem.
  destruct d as [| | | |l]; try by repeat split.
  destruct (h !! l) as [[m|?]|] eqn:Hl; try by repeat split.
  simpl in *. split; [by rewrite length_insert|]. split; [|done].
  intros l' o Hl' Hlook. destruct (decide (l' = l)) as [->|Hne].
  - rewrite list_lookup_insert_eq in Hlook by (by eapply lookup_lt_Some).
    injection Hlook as <-. apply map_Forall_insert_2; [done|].
    by apply (Hsep l (ODict m)).
  - rewrite list_lookup_insert_ne in Hlook by done. by eapply Hsep.
Qed.

Lemma isolating_setdefault b d k dflt :
  fresh b d → isolating b (fresh b) dflt →
  isolating b (fresh b) (py_setdefault d k dflt).
Proof.
  intros Hd Hdflt. unfold py_setdefault.
  eapply isolating_bind; [by apply isolating_as_dict|]. intros _ _.
  eapply isolating_bind; [exact Hdflt|]. intros x Hx.
  eapply isolating_bind; [by apply isolating_as_dict|]. intros m Hm.
  destruct (m !! k) as [y|] eqn:Hk.
  - apply isolating_ret. by apply (Hm k y).
  - eapply isolating_bind; [by apply isolating_setitem|]. intros.
    by apply isolating_ret.
Qed.

Lemma isolating_forM {A B} b (P : B → Prop) (f : A → M B) l :
  (∀ a, isolating b P (f a)) → isolating b (Forall P) (forM f l).
Proof.
  intros Hf. induction l as [|a l IH]; simpl; [by apply isolating_ret|].
  eapply isolating_bind; [apply Hf|]. intros y Hy.
  eapply isolating_bind; [apply IH|]. intros ys Hys.
  apply isolating_ret. by constructor.
Qed.

Lemma list_to_map_Forall {A} (P : A → Prop) (l : list (string * A)) :
  Forall (λ kv, P kv.2) l → map_Forall (λ _, P) (list_to_map l : gmap string A).
Proof.
  induction 1 as [|[k x] l Hx _ IH]; simpl.
  - apply map_Forall_empty.
  - by apply map_Forall_insert_2.
Qed.

Lemma isolating_deepcopy b n v : isolating b (fresh b) (deepcopy n v).
Proof.
  revert v. induction n as [|n IH]; intros v.
  - destruct v as [| | | |l]; try (by apply isolating_ret).
    intros h _ Hsep. by repeat split.
  - destruct v as [| | | |l]; try (by apply isolating_ret).
    intros h Hb Hsep. simpl. destruct (h !! l) as [[m|xs]|].
    + revert h Hb Hsep. eapply isolating_bind.
      * apply (isolating_forM _ (λ kv, fresh b kv.2)). intros [k v].
        eapply isolating_bind; [apply IH|]. intros y Hy. by apply isolating_ret.
      * intros kvs Hkvs. apply isolating_alloc. by apply list_to_map_Forall.
    + revert h Hb Hsep. eapply isolating_bind.
      * apply (isolating_forM _ (fresh b)). intros v. apply IH.
      * intros ys Hys. by apply isolating_alloc.
    + by repeat split.
Qed.

Lemma isolating_new_certs b certs : isolating b (fresh b) (new_certs certs).
Proof.
  unfold new_certs. eapply isolating_bind.
  - apply (isolating_forM _ (λ kv, fresh b kv.2)). intros [k l].
    eapply isolating_bind.
    + apply isolating_alloc. simpl. apply Forall_fmap, Forall_forall. done.
    + intros y Hy. by apply isolating_ret.
  - intros kvs Hkvs. apply isolating_alloc. by apply list_to_map_Forall.
Qed.

Lemma isolating_select b certs c :
  fresh b c →
  isolating b (map_Forall (λ _, fresh b))
    (lift (select_idp_certificates certs c)).
Proof.
  intros Hc. apply isolating_lift. intros ic.
  destruct (select_cases certs c) as [(x & ->)| ->];
    intros [= <-]; by apply map_Forall_singleton.
Qed.

Ltac fresh_cell :=
  simpl;
  repeat first
    [ assumption
    | exact I
    | apply map_Forall_union_2
    | apply map_Forall_insert_2
    | apply map_Forall_singleton
    | apply map_Forall_empty ].

Ltac isolating_step :=
  first
    [ (apply isolating_ret; assumption)
    | eapply isolating_bind;
      [ first [ apply isolating_new_certs
              | (apply isolating_select; assumption)
              | apply isolating_deepcopy
              | (apply isolating_as_dict; assumption)
              | (apply isolating_setitem; [assumption|exact I])
              | (apply isolating_setdefault;
                 [assumption|apply isolating_alloc; fresh_cell])
              | (apply isolating_alloc; fresh_cell) ]
      | intros ? ? ] ].

Lemma isolating_get_provider_config b fuel self defaults :
  isolating b (fresh b) (get_provider_config fuel self defaults).
Proof.
  unfold get_provider_config, new_dict, py_unpack. repeat isolating_step.
Qed.

(** A value that names no cell below [b] reads the same in any heap with
    the same cells from [b] on. *)
Lemma reify_above b h1 h2 :
  separate b h1 → (∀ l, b ≤ l → h2 !! l = h1 !! l) →
  ∀ n v t, fresh b v → reify n h1 v = Some t → reify n h2 v = Some t.
Proof.
  intros Hsep Hsame n. induction n as [|n IH]; intros v t Hv Ht.
  - by destruct v.
  - destruct v as [| | | |l]; try done. simpl in Hv.
    apply reify_ref_inv in Ht as (n0 & [= <-] & [(m & tm & -> & Hl & Hm)|
                                                 (xs & ts & -> & Hl & Hxs)]).
    + apply reify_dict. exists m. split; [by rewrite Hsame|].
      pose proof (Hsep l _ Hv Hl) as Hcell. simpl in Hcell.
      intros k. specialize (Hm k). specialize (Hcell k).
      destruct (m !! k) as [x|]; inversion Hm; simplify_eq; constructor.
      apply IH; [by apply Hcell|done].
    + apply reify_list. exists xs. split; [by rewrite Hsame|].
      pose proof (Hsep l _ Hv Hl) as Hcell. simpl in Hcell.
      clear Hl. revert Hcell.
      induction Hxs as [|x t xs ts Hx _ IHxs]; intros Hcell; [constructor|].
      apply Forall_cons in Hcell as [? ?]. constructor; [by apply IH|auto].
Qed.

(** X11.  The configuration and every object the call creates refer only
    to objects the call created: each cell beyond those the call was given
    holds atoms and references to such cells only, and so does the value
    returned.  So the configuration shares no dict or list with the
    defaults or with anything that existed before, and reads the same
    whatever is done afterwards to the objects that existed before. *)
Theorem result_shares_nothing fuel self defaults h :
  let r := get_provider_config fuel self defaults h in
  (∀ l o, length h ≤ l → r.2 !! l = Some o → cell_above (length h) o)
  ∧ (∀ out, r.1 = Ok out → fresh (length h) out)
  ∧ (∀ out h2 n t,
       r.1 = Ok out →
       (∀ l, length h ≤ l → h2 !! l = r.2 !! l) →
       reify n r.2 out = Some t → reify n h2 out = Some t).
Proof.
  intros r.
  destruct (isolating_get_provider_config (length h) fuel self defaults h)
    as (_ & Hsep & Hout); [done| |].
  { intros l o Hl Hlook. apply lookup_lt_Some in Hlook. lia. }
  fold r in Hsep, Hout. split; [exact Hsep|]. split; [exact Hout|].
  intros out h2 n t Hr Hsame Ht.
  eapply (reify_above (length h) r.2 h2); [done|done|by apply Hout|done].
Qed.

Lemma result_shares_nothing_witness :
  let r := get_provider_config 2 (provider_with ["CERTA"] ["CERTB"]) (VRef 3)
             example_heap in
  ∃ out, r.1 = Ok out
    ∧ reify 6 ([ODict ∅; ODict ∅; ODict ∅; ODict ∅] ++ drop 4 r.2) out
      = Some (TDict (config_tree (provider_with ["CERTA"] ["CERTB"])
                       example_template)).
Proof.
  intros r.
  destruct (get_provider_config_reads 2 (provider_with ["CERTA"] ["CERTB"])
              (VRef 3) example_heap example_template example_is_template)
    as (out & h' & Hrun & Hread).
  assert (Hr : r = (Ok out, h')) by exact Hrun.
  exists out. split; [by rewrite Hr|].
  destruct (result_shares_nothing 2 (provider_with ["CERTA"] ["CERTB"])
              (VRef 3) example_heap) as (_ & _ & Hsame).
  apply (Hsame out).
  - fold r. by rewrite Hr.
  - fold r. intros l Hl. simpl in Hl.
    rewrite lookup_app_r by (simpl; lia). rewrite lookup_drop. simpl.
    f_equal. lia.
  - fold r. rewrite Hr. exact Hread.
Defined.

(** ** No certificate text is lost *)

(** X12.  Whichever certificate entry the idp section holds, it carries
    the provider's texts in full: [x509certMulti] is always the dict of
    the whole signing list and the whole encryption list (both keys
    present, also when a list is empty), and [x509cert] is the one text
    that is the whole of both lists. *)
Theorem certificate_entry_carries_all_texts fuel self defaults h tm :
  template fuel h defaults tm →
  ∃ to ti, builds fuel self defaults h to
    ∧ to !! "idp" = Some (TDict ti)
    ∧ (∀ v, ti !! "x509certMulti" = Some v →
         v = TDict {[ "signing" := TList (TStr <$> signing_texts self);
                      "encryption" := TList (TStr <$> encryption_texts self) ]})
    ∧ (∀ v, ti !! "x509cert" = Some v →
         ∃ x, v = TStr x ∧ signing_texts self = [x]
              ∧ encryption_texts self = [x]).
Proof.
  intros Ht. exists (config_tree self tm), (idp_tree self).
  split; [by apply builds_config|]. split; [done|].
  unfold idp_tree.
  destruct (single_cert_cond (build_certs self)) eqn:Hc.
  - apply single_cert_cond_build in Hc as (x & Hs & He).
    rewrite (cert_field_single self x) by done. split; [done|].
    intros v [= <-]. eauto.
  - rewrite cert_field_multi by done. split; [|done].
    by intros v [= <-].
Qed.

Lemma certificate_entry_witness :
  ∃ to ti, builds 2 (provider_with ["CERTA"] []) (VRef 3) example_heap to
    ∧ to !! "idp" = Some (TDict ti)
    ∧ (∀ v, ti !! "x509certMulti" = Some v →
         v = TDict {[ "signing" := TList [TStr "CERTA"];
                      "encryption" := TList [] ]})
    ∧ (∀ v, ti !! "x509cert" = Some v →
         ∃ x, v = TStr x ∧ ["CERTA"] = [x] ∧ [] = [x]).
Proof.
  apply (certificate_entry_carries_all_texts 2 (provider_with ["CERTA"] [])
           _ _ example_template).
  exact example_is_template.
Defined.
